(** * Rope-way equilibrium scripts: a shallow embedding

    The repository is a set of Python scripts that size the counterweight of
    a cable transport and sweep the gondola along the rope.  Two scripts hold
    the core: [realistic_model.py] and [simulation_01_general.py].

    Numeric model.  Python and NumPy floats are modelled as the reals [R]:
    rounding, overflow to [inf] and [nan] are outside the model, but for the
    gondola position of [RealisticModelFloat], which may be [nan].  A division
    of two Python floats raises [ZeroDivisionError] on a zero divisor and is
    modelled by [pydiv]; a division with a NumPy operand never raises and is
    modelled by the total division of [R].

    SciPy.  [scipy.optimize.root_scalar] and [scipy.optimize.root] are not
    code of the repository: they are an interface ([scipy]) the scripts are
    parameterised by, and what a theorem needs of them is a named contract
    in its statement. *)

From Stdlib Require Import Reals Lra Lia List Bool Ranalysis5.
Import ListNotations.
Local Open Scope R_scope.

(** ** Python exceptions *)

Inductive exn : Type :=
| ZeroDivisionError
| ValueError
| RuntimeError.

Inductive py (A : Type) : Type :=
| Ret (a : A)
| Raise (e : exn).

Arguments Ret {A} a.
Arguments Raise {A} e.

Definition bind {A B : Type} (c : py A) (k : A -> py B) : py B :=
  match c with
  | Ret a => k a
  | Raise e => Raise e
  end.

Notation "x <- c ;; k" := (bind c (fun x => k))
  (at level 61, c at next level, right associativity).

(** [try: body except: handler] with a bare [except]. *)
Definition try_except {A : Type} (body handler : py A) : py A :=
  match body with
  | Ret a => Ret a
  | Raise _ => handler
  end.

(** [x / y] on two Python floats. *)
Definition pydiv (x y : R) : py R :=
  if Req_dec_T y 0 then Raise ZeroDivisionError else Ret (x / y).

Definition raises {A : Type} (c : py A) : Prop :=
  exists e, c = Raise e.

(** ** NumPy *)

(** [np.linspace(start, stop, num)]: [num] evenly spaced samples, the last
    one set to [stop] itself. *)
Definition linspace (start stop : R) (num : nat) : list R :=
  match num with
  | O => []
  | S O => [start]
  | S (S k) =>
      let step := (stop - start) / INR (S k) in
      map (fun i => INR i * step + start) (seq 0 (S k)) ++ [stop]
  end.

(** ** SciPy's optimisers, as the scripts see them *)

(** The unknowns of the loaded system, [[y_g, H, c1, c2]]. *)
Definition vars4 : Type := (R * R * R * R)%type.

Record RootResults : Type := { root : R; converged : bool }.
Record OptimizeResult : Type := { x : vars4; success : bool }.

Record scipy : Type := {
  (** [root_scalar(f, bracket=[lo, hi], method='brentq')] *)
  root_scalar : (R -> R) -> R -> R -> py RootResults;
  (** [root(fun, x0, method='lm')] *)
  root_lm : (vars4 -> vars4) -> vars4 -> py OptimizeResult
}.

(** What [brentq] does on a bracket, with [tol] a bound on the residual at
    the returned root: without a sign change it raises [ValueError]; on a
    bracket where [f] is continuous and changes sign it returns a root inside
    the bracket. *)
Definition brentq_contract (tol : R) (f : R -> R) (lo hi : R)
    (res : py RootResults) : Prop :=
  (0 < f lo * f hi -> res = Raise ValueError) /\
  ((forall a, lo <= a <= hi -> continuity_pt f a) ->
   lo < hi -> f lo * f hi <= 0 ->
   exists r, res = Ret r /\ lo <= root r <= hi /\ Rabs (f (root r)) < tol).

(** The largest absolute residual of a 4-vector. *)
Definition within (tol : R) (r : vars4) : Prop :=
  let '(r1, r2, r3, r4) := r in
  Rabs r1 < tol /\ Rabs r2 < tol /\ Rabs r3 < tol /\ Rabs r4 < tol.

(** A result of [root] is converged within [tol] on [F] when it reports
    success and every residual of [F] at its point is below [tol]. *)
Definition converged_within (tol : R) (F : vars4 -> vars4)
    (sol : OptimizeResult) : Prop :=
  success sol = true /\ within tol (F (x sol)).

(** ** Catenary primitives, as the specification words them *)

Module Spec.

(** Height of a segment with constant [a] and shift [c], normalised so
    that it passes through the origin. *)
Definition catenary_height (a c x : R) : R :=
  a * cosh ((x - c) / a) - a * cosh (- c / a).

Definition catenary_slope (a c x : R) : R :=
  sinh ((x - c) / a).

(** The catenary constant of a horizontal tension. *)
Definition catenary_constant (H_tension lam g : R) : R :=
  H_tension / (lam * g).

(** Right segment: shift [c2], vertical offset chosen so that it passes
    through the gondola at [(x_g, y_g)]. *)
Definition right_segment (a c2 x_g y_g x : R) : R :=
  a * cosh ((x - c2) / a) + (y_g - a * cosh ((x_g - c2) / a)).

(** The unloaded rail through the origin with horizontal departure. *)
Definition static_rail (a x : R) : R :=
  a * (cosh (x / a) - 1).

(** The four conditions of a loaded equilibrium [(y_g, H_tension, c1, c2)]
    at [x_g], each within [tol]: the left segment reaches the gondola, the
    right segment reaches the upper station [(D, H)], the slope jump carries
    the gondola's weight, and the tension at the lower anchor is the
    counterweight's weight. *)
Definition equilibrium_within (tol g x_g M_cw D H m_g lam : R)
    (sol : R * R * R * R) : Prop :=
  let '(y_g, H_tension, c1, c2) := sol in
  let a := catenary_constant H_tension lam g in
  Rabs (catenary_height a c1 x_g - y_g) < tol /\
  Rabs (right_segment a c2 x_g y_g D - H) < tol /\
  Rabs (H_tension * (catenary_slope a c2 x_g - catenary_slope a c1 x_g)
        - m_g * g) < tol /\
  Rabs (H_tension * sqrt (1 + catenary_slope a c1 0 ^ 2) - M_cw * g) < tol.

End Spec.

(** ** realistic_model.py *)

Module RealisticModel.

(** The module-level configuration constants. *)
Record config : Type := {
  D : R;
  H : R;
  m_gondola : R;
  lam : R;
  g : R
}.

(** The values the script ships with. *)
Definition slovak_exercise : config :=
  {| D := 200; H := 50; m_gondola := 500; lam := 5; g := 9.81 |}.

Definition find_catenary_constant (cfg : config) (a : R) : R :=
  if Rle_dec a 0 then 1e9
  else a * (cosh (D cfg / a) - 1) - H cfg.

(** [sol_a = root_scalar(find_catenary_constant, bracket=[0.1, 10000], ...)] *)
Definition sol_a (sp : scipy) (cfg : config) : py RootResults :=
  root_scalar sp (find_catenary_constant cfg) 0.1 10000.

Definition a_static (sp : scipy) (cfg : config) : py R :=
  s <- sol_a sp cfg ;;
  Ret (root s).

(** [M_counterweight = a_static * lam] *)
Definition M_counterweight (a_static : R) (cfg : config) : R :=
  a_static * lam cfg.

(** The base tension, in newtons; the script prints it in kilonewtons
    and seeds the loaded solver with it. *)
Definition base_tension (M_counterweight : R) (cfg : config) : R :=
  M_counterweight * g cfg.

(** The residual function nested in [solve_gondola_position]; [g] is the
    module-level constant, the rest are the enclosing function's
    arguments. *)
Definition system (g x_g M_cw D H m_g lam : R) (vars : vars4) : vars4 :=
  let '(y_current, H_current, c1, c2) := vars in
  let a := H_current / (lam * g) in
  let y_left_end := a * cosh ((x_g - c1) / a) - a * cosh ((- c1) / a) in
  let v_shift := y_current - a * cosh ((x_g - c2) / a) in
  let y_right_end := a * cosh ((D - c2) / a) + v_shift in
  let slope_L_gondola := sinh ((x_g - c1) / a) in
  let slope_R_gondola := sinh ((x_g - c2) / a) in
  let slope_L_anchor := sinh ((0 - c1) / a) in
  let force_err :=
    H_current * (slope_R_gondola - slope_L_gondola) - (m_g * g) in
  let tension_err :=
    H_current * sqrt (1 + slope_L_anchor ^ 2) - (M_cw * g) in
  (y_current - y_left_end, H - y_right_end, force_err, tension_err).

(** The seed handed to [root]; [H / D] divides two Python floats. *)
Definition vars_guess (g x_g M_cw D H : R) : py vars4 :=
  let H_guess := M_cw * g in
  slope <- pydiv H D ;;
  let y_guess := slope * x_g in
  Ret (y_guess, H_guess, 0, D).

Definition solve_gondola_position (sp : scipy) (g : R)
    (x_g M_cw D H m_g lam : R) : py (option R) :=
  if Rle_dec x_g 0 then Ret (Some 0)
  else if Rge_dec x_g D then Ret (Some H)
  else
    guess <- vars_guess g x_g M_cw D H ;;
    try_except
      (sol <- root_lm sp (system g x_g M_cw D H m_g lam) guess ;;
       if success sol then Ret (Some (fst (fst (fst (x sol)))))
       else Ret None)
      (Ret None).

Definition x_vals (cfg : config) : list R := linspace 0 (D cfg) 50.

Definition static_height (a_static x : R) : R :=
  a_static * (cosh (x / a_static) - 1).

(** First loop: [y_static.append(val)] for every sample. *)
Fixpoint static_loop (a_static : R) (xs : list R) (y_static : list R)
    : list R :=
  match xs with
  | [] => y_static
  | x :: rest =>
      let val := static_height a_static x in
      static_loop a_static rest (y_static ++ [val])
  end.

(** Second loop: solve, fall back on [None], append. *)
Fixpoint trajectory_loop (sp : scipy) (cfg : config)
    (a_static M_counterweight : R) (xs : list R) (y_trajectory : list R)
    : py (list R) :=
  match xs with
  | [] => Ret y_trajectory
  | x :: rest =>
      y_traj <- solve_gondola_position sp (g cfg) x M_counterweight
                  (D cfg) (H cfg) (m_gondola cfg) (lam cfg) ;;
      let y_traj :=
        match y_traj with
        | None => static_height a_static x
        | Some y => y
        end in
      trajectory_loop sp cfg a_static M_counterweight rest
        (y_trajectory ++ [y_traj])
  end.

(** Everything the script computes before plotting. *)
Record results : Type := {
  res_a_static : R;
  res_M_counterweight : R;
  res_x_vals : list R;
  res_y_static : list R;
  res_y_trajectory : list R
}.

Definition main (sp : scipy) (cfg : config) : py results :=
  a <- a_static sp cfg ;;
  let M := M_counterweight a cfg in
  let xs := x_vals cfg in
  let ys := static_loop a xs [] in
  yt <- trajectory_loop sp cfg a M xs [] ;;
  Ret {| res_a_static := a;
         res_M_counterweight := M;
         res_x_vals := xs;
         res_y_static := ys;
         res_y_trajectory := yt |}.

End RealisticModel.

(** ** simulation_01_general.py *)

Module Simulation01.

Record config : Type := {
  D : R;
  Tower_H : R;
  m_g : R;
  lam : R;
  g : R
}.

Definition find_a (cfg : config) (a : R) : R :=
  if Rle_dec a 0 then 1e9
  else a * (cosh (D cfg / a) - 1) - Tower_H cfg.

(** [a_static = root_scalar(find_a, bracket=[10, 5000], ...).root] *)
Definition a_static (sp : scipy) (cfg : config) : py R :=
  s <- root_scalar sp (find_a cfg) 10 5000 ;;
  Ret (root s).

Definition M_cw (a_static : R) (cfg : config) : R :=
  a_static * lam cfg.

(** The residual function nested in [solve_state]; everything but [x_g]
    is a module-level constant. *)
Definition system (cfg : config) (M_cw x_g : R) (vars : vars4) : vars4 :=
  let '(y_g, H, c1, c2) := vars in
  let a := H / (lam cfg * g cfg) in
  let y_L_xg := a * cosh ((x_g - c1) / a) - a * cosh (- c1 / a) in
  let v_shift := y_g - a * cosh ((x_g - c2) / a) in
  let y_R_D := a * cosh ((D cfg - c2) / a) + v_shift in
  let slope_L_xg := sinh ((x_g - c1) / a) in
  let slope_R_xg := sinh ((x_g - c2) / a) in
  let slope_start := sinh (- c1 / a) in
  let force_err := H * (slope_R_xg - slope_L_xg) - (m_g cfg * g cfg) in
  let tension_err := H * sqrt (1 + slope_start ^ 2) - (M_cw * g cfg) in
  (y_g - y_L_xg, Tower_H cfg - y_R_D, force_err, tension_err).

(** [guess = [(Tower_H/D)*x_g - 5, M_cw*g, 0, D]] *)
Definition guess (cfg : config) (M_cw x_g : R) : py vars4 :=
  slope <- pydiv (Tower_H cfg) (D cfg) ;;
  Ret (slope * x_g - 5, M_cw * g cfg, 0, D cfg).

(** [return sol.x if sol.success else guess] *)
Definition solve_state (sp : scipy) (cfg : config) (M_cw x_g : R)
    : py vars4 :=
  guess <- guess cfg M_cw x_g ;;
  sol <- root_lm sp (system cfg M_cw x_g) guess ;;
  Ret (if success sol then x sol else guess).

End Simulation01.

(** ** graph_trajectory_counterweight.py *)

Module GraphTrajectory.

(** This script has no gondola mass and no gravity among its constants. *)
Record config : Type := {
  D : R;
  H_tower : R;
  lam : R
}.

Definition find_a (cfg : config) (a : R) : R :=
  if Rle_dec a 0 then 1e9
  else a * (cosh (D cfg / a) - 1) - H_tower cfg.

(** [a = root_scalar(find_a, bracket=[10, 5000], ...).root] *)
Definition a (sp : scipy) (cfg : config) : py R :=
  s <- root_scalar sp (find_a cfg) 10 5000 ;;
  Ret (root s).

Definition M_cw (a : R) (cfg : config) : R :=
  a * lam cfg.

End GraphTrajectory.

(** ** realistic_model.py, a position that is not a number *)

Module RealisticModelFloat.

(** A Python float where [nan] matters: a real number, or [nan]. *)
Inductive pyfloat : Type :=
| Num (r : R)
| NaN.

(** [solve_gondola_position] with [x_g] a float.  On a number it is the
    function of [RealisticModel].  On [nan] both comparisons [x_g <= 0] and
    [x_g >= D] are false, so the seed is built: [H / D] divides two Python
    floats before the [try]; the guarded call then runs on a seed that holds
    [nan], and [root_on_nan] is what [root] answers there: the first
    component of [sol.x] and [sol.success], or an exception. *)
Definition solve_gondola_position (sp : scipy)
    (root_on_nan : py (pyfloat * bool)) (g : R) (x_g : pyfloat)
    (M_cw D H m_g lam : R) : py (option pyfloat) :=
  match x_g with
  | Num r =>
      o <- RealisticModel.solve_gondola_position sp g r M_cw D H m_g lam ;;
      Ret (option_map Num o)
  | NaN =>
      slope <- pydiv H D ;;
      try_except
        (sol <- root_on_nan ;;
         if snd sol then Ret (Some (fst sol)) else Ret None)
        (Ret None)
  end.

End RealisticModelFloat.

(** ** Stand-ins for SciPy, to run the scripts on *)

(** A scalar solver that answers [r] whatever it is asked. *)
Definition brentq_answers (r : R) : (R -> R) -> R -> R -> py RootResults :=
  fun _ _ _ => Ret {| root := r; converged := true |}.

(** [root] that gives up at the seed. *)
Definition lm_gives_up : (vars4 -> vars4) -> vars4 -> py OptimizeResult :=
  fun _ x0 => Ret {| x := x0; success := false |}.

(** [root] that reports success at the seed. *)
Definition lm_accepts_seed : (vars4 -> vars4) -> vars4 -> py OptimizeResult :=
  fun _ x0 => Ret {| x := x0; success := true |}.

(** [root] that reports success at a fixed point [v]. *)
Definition lm_answers (v : vars4) : (vars4 -> vars4) -> vars4 -> py OptimizeResult :=
  fun _ _ => Ret {| x := v; success := true |}.

(** [root] that raises. *)
Definition lm_raises : (vars4 -> vars4) -> vars4 -> py OptimizeResult :=
  fun _ _ => Raise RuntimeError.

(** [root] that reports success on the rail of constant [a], above the
    abscissa [k] times the seeded height. *)
Definition lm_lands_on_rail (a k : R)
    : (vars4 -> vars4) -> vars4 -> py OptimizeResult :=
  fun _ x0 =>
    let '(y0, H0, c1, c2) := x0 in
    Ret {| x := (a * (cosh (k * y0 / a) - 1), H0, c1, c2); success := true |}.

(** SciPy failing at every loaded solve, and SciPy converging onto the
    static rail at every loaded solve of the shipped configuration. *)
Definition scipy_failing : scipy :=
  {| root_scalar := brentq_answers 400; root_lm := lm_gives_up |}.

Definition scipy_on_rail : scipy :=
  {| root_scalar := brentq_answers 400; root_lm := lm_lands_on_rail 400 4 |}.

(** A point of the unknowns whose tension is negative. *)
Definition sagging_upwards : vars4 := (0, -1, 0, 0).

(** The hanging rail of constant 1 over a span of 2, in unit density and
    gravity, with the gondola weightless at mid-span. *)
Definition hanging_rail : vars4 := (cosh 1 - 1, 1, 0, 0).

(** ** Vocabulary of the statements *)

Import RealisticModel.

(** The height the sweep of [realistic_model.py] records for the sample
    [x0]: the solver's answer, or the static rail on [None]. *)
Definition sample_height (sp : scipy) (cfg : config) (a M x0 : R) : R :=
  match solve_gondola_position sp (g cfg) x0 M (D cfg) (H cfg)
          (m_gondola cfg) (lam cfg) with
  | Ret (Some y) => y
  | _ => static_height a x0
  end.

(** The horizontal tension of a point of the unknowns. *)
Definition tension_of (v : vars4) : R := snd (fst (fst v)).

(** The gondola height of a point of the unknowns. *)
Definition height_of (v : vars4) : R := fst (fst (fst v)).

(** [root] did not converge: it reported failure, or it raised. *)
Definition not_converged (res : py OptimizeResult) : Prop :=
  (exists sol, res = Ret sol /\ success sol = false) \/ raises res.

(** The target height lies between the rail heights of the two ends of the
    bracket [[lo, hi]]. *)
Definition bracket_holds_root (cfg : config) (lo hi : R) : Prop :=
  hi * (cosh (D cfg / hi) - 1) <= H cfg <= lo * (cosh (D cfg / lo) - 1).

(** A span of 200 m with a rise of 1 m. *)
Definition shallow_rise : config :=
  {| D := 200; H := 1; m_gondola := 500; lam := 5; g := 9.81 |}.

(** A configuration whose rail has constant 10000 exactly. *)
Definition taut_rail : config :=
  {| D := 200; H := 10000 * (cosh (200 / 10000) - 1);
     m_gondola := 500; lam := 5; g := 9.81 |}.

(** ** realistic_model.py, the deflection annotation *)

Module RealisticModelAnnotation.

(** [mid_idx = len(x_vals)//2] *)
Definition mid_idx (x_vals : list R) : nat := Nat.div (length x_vals) 2.

(** [sag_diff = y_trajectory[mid_idx] - y_static[mid_idx]]; [None] stands
    for the [IndexError] of an index past the end of a list. *)
Definition sag_diff (r : RealisticModel.results) : option R :=
  let i := mid_idx (RealisticModel.res_x_vals r) in
  match nth_error (RealisticModel.res_y_trajectory r) i,
        nth_error (RealisticModel.res_y_static r) i with
  | Some yt, Some ys => Some (yt - ys)
  | _, _ => None
  end.

End RealisticModelAnnotation.

(** ** simulation_01_general.py, the animation frames *)

Module Simulation01Frames.

(** One entry of [frame_data]: [(x_g, y_g, rope_x, rope_y)]. *)
Record frame : Type := {
  frame_x_g : R;
  frame_y_g : R;
  rope_x : list R;
  rope_y : list R
}.

(** [x_gondola_vals = np.linspace(2, D-2, FRAMES)] *)
Definition x_gondola_vals (cfg : Simulation01.config) (FRAMES : nat)
    : list R :=
  linspace 2 (Simulation01.D cfg - 2) FRAMES.

(** A division in the loop body.  The state is a NumPy array when it is
    [sol.x], and the Python list [guess] when the solve failed: in that case
    [H], [c1] and [a] are Python numbers and their divisions can raise. *)
Definition div_of (python : bool) (n d : R) : py R :=
  if python then pydiv n d else Ret (n / d).

(** The two rope segments of a frame, 20 points each. *)
Definition rope (cfg : Simulation01.config) (from_seed : bool) (x_g : R)
    (state : vars4) : py frame :=
  let '(y_g, H, c1, c2) := state in
  a <- div_of from_seed H (Simulation01.lam cfg * Simulation01.g cfg) ;;
  let x_left := linspace 0 x_g 20 in
  origin <- div_of from_seed (- c1) a ;;
  let y_left :=
    map (fun u => a * cosh ((u - c1) / a) - a * cosh origin) x_left in
  let x_right := linspace x_g (Simulation01.D cfg) 20 in
  let v_shift := y_g - a * cosh ((x_g - c2) / a) in
  let y_right := map (fun u => a * cosh ((u - c2) / a) + v_shift) x_right in
  Ret {| frame_x_g := x_g;
         frame_y_g := y_g;
         rope_x := x_left ++ x_right;
         rope_y := y_left ++ y_right |}.

(** The body of the loop for one [x_g]: [solve_state], then the rope. *)
Definition frame_of (sp : scipy) (cfg : Simulation01.config) (M_cw x_g : R)
    : py frame :=
  seed <- Simulation01.guess cfg M_cw x_g ;;
  sol <- root_lm sp (Simulation01.system cfg M_cw x_g) seed ;;
  let state := if success sol then x sol else seed in
  rope cfg (negb (success sol)) x_g state.

Fixpoint frame_loop (sp : scipy) (cfg : Simulation01.config) (M_cw : R)
    (xs : list R) (frame_data : list frame) : py (list frame) :=
  match xs with
  | [] => Ret frame_data
  | x_g :: rest =>
      f <- frame_of sp cfg M_cw x_g ;;
      frame_loop sp cfg M_cw rest (frame_data ++ [f])
  end.

Definition traj_x (frame_data : list frame) : list R :=
  map frame_x_g frame_data.

Definition traj_y (frame_data : list frame) : list R :=
  map frame_y_g frame_data.

End Simulation01Frames.

(** ** simulation_02_realistic_contweight_automatic.py *)

Module Simulation02.

Record config : Type := {
  D : R;
  H_tower : R;
  m_g : R;
  lam : R;
  g : R
}.

(** The load-aware objective; [m_g / (a * lam)] divides Python floats. *)
Definition find_a (cfg : config) (a : R) : py R :=
  if Rle_dec a 0 then Ret 1e9
  else
    q <- pydiv (m_g cfg) (a * lam cfg) ;;
    let alpha := arcsinh q in
    Ret (a * (cosh (D cfg / a + alpha) - cosh alpha) - H_tower cfg).

(** [root] on the two unknowns of the unloaded rope. *)
Record OptimizeResult2 : Type := { x2 : R * R; success2 : bool }.

(** The residual function nested in [solve_unloaded]. *)
Definition sys (cfg : config) (M_cw : R) (vars : R * R) : R * R :=
  let '(H_u, c1_u) := vars in
  let a_u := H_u / (lam cfg * g cfg) in
  let y_D :=
    a_u * cosh ((D cfg - c1_u) / a_u) - a_u * cosh (- c1_u / a_u) in
  let T_0 := H_u * cosh (- c1_u / a_u) in
  (y_D - H_tower cfg, T_0 - (M_cw * g cfg)).

Definition solve_unloaded
    (root2 : (R * R -> R * R) -> R * R -> py OptimizeResult2)
    (cfg : config) (M_cw : R) : py (R * R) :=
  let guess := (M_cw * g cfg * 0.95, 10) in
  sol <- root2 (sys cfg M_cw) guess ;;
  Ret (if success2 sol then x2 sol else guess).

(** The residual function nested in [solve_state]. *)
Definition system (cfg : config) (M_cw x_g : R) (vars : vars4) : vars4 :=
  let '(y_g, H_tens, c1, c2) := vars in
  let a := H_tens / (lam cfg * g cfg) in
  let y_L_xg := a * cosh ((x_g - c1) / a) - a * cosh (- c1 / a) in
  let v_shift := y_g - a * cosh ((x_g - c2) / a) in
  let y_R_D := a * cosh ((D cfg - c2) / a) + v_shift in
  let slope_L_xg := sinh ((x_g - c1) / a) in
  let slope_R_xg := sinh ((x_g - c2) / a) in
  let slope_start := sinh (- c1 / a) in
  let err1 := y_g - y_L_xg in
  let err2 := H_tower cfg - y_R_D in
  let err3 := H_tens * (slope_R_xg - slope_L_xg) - (m_g cfg * g cfg) in
  let err4 := H_tens * sqrt (1 + slope_start ^ 2) - (M_cw * g cfg) in
  (err1, err2, err3, err4).

(** [guess = [(H_tower/D)*x_g, M_cw*g, 0, D]] *)
Definition guess (cfg : config) (M_cw x_g : R) : py vars4 :=
  slope <- pydiv (H_tower cfg) (D cfg) ;;
  Ret (slope * x_g, M_cw * g cfg, 0, D cfg).

Definition solve_state (sp : scipy) (cfg : config) (M_cw x_g : R)
    : py vars4 :=
  guess <- guess cfg M_cw x_g ;;
  sol <- root_lm sp (system cfg M_cw x_g) guess ;;
  Ret (if success sol then x sol else guess).

End Simulation02.

(** ** graph_trajectory_counterweight.py, the plotted curve *)

Module GraphTrajectoryCurve.

(** [x_vals = np.linspace(0, D, 200)] *)
Definition x_vals (cfg : GraphTrajectory.config) : list R :=
  linspace 0 (GraphTrajectory.D cfg) 200.

(** [y_vals = (M_cw / lam) * (np.cosh((x_vals * lam) / M_cw) - 1)];
    [M_cw / lam] divides two Python floats. *)
Definition y_vals (cfg : GraphTrajectory.config) (M_cw : R) : py (list R) :=
  q <- pydiv M_cw (GraphTrajectory.lam cfg) ;;
  Ret (map (fun u => q * (cosh (u * GraphTrajectory.lam cfg / M_cw) - 1))
         (x_vals cfg)).

End GraphTrajectoryCurve.

(** ** forces_analysis.py *)

Module ForcesAnalysis.

Record config : Type := {
  D : R;
  H : R;
  m_gondola : R;
  M_counter : R;
  lam : R;
  g : R
}.

(** [a = M_counter / lam] *)
Definition a (cfg : config) : py R := pydiv (M_counter cfg) (lam cfg).

Definition x_vals (cfg : config) : list R := linspace 0 (D cfg) 100.

(** [np.degrees] *)
Definition degrees (theta : R) : R := theta * (180 / PI).

(** The three lists the loop fills. *)
Record forces : Type := {
  traction_forces : list R;
  cable_tensions : list R;
  angles_deg : list R
}.

(** The loop over [x_vals].  [x / a] is a NumPy division: with [a = 0] it
    is [inf] or [nan], which the reals do not hold, so the loop stands for
    the script only where [a <> 0]. *)
Fixpoint loop (cfg : config) (a : R) (xs : list R) (acc : forces) : forces :=
  match xs with
  | [] => acc
  | u :: rest =>
      let slope := sinh (u / a) in
      let theta_rad := atan slope in
      let f_pull := m_gondola cfg * g cfg * sin theta_rad in
      let t_cable := (M_counter cfg * g cfg) * cosh (u / a) in
      loop cfg a rest
        {| traction_forces := traction_forces acc ++ [f_pull];
           cable_tensions := cable_tensions acc ++ [t_cable];
           angles_deg := angles_deg acc ++ [degrees theta_rad] |}
  end.

Definition main (cfg : config) : py forces :=
  a <- a cfg ;;
  Ret (loop cfg a (x_vals cfg)
         {| traction_forces := []; cable_tensions := []; angles_deg := [] |}).

End ForcesAnalysis.

(** ** sensitivity_analysis.py *)

Module SensitivityAnalysis.

Record config : Type := {
  D : R;
  H : R;
  lam : R;
  M_base : R
}.

Definition masses (cfg : config) : list R :=
  [M_base cfg * 0.8; M_base cfg * 0.9; M_base cfg;
   M_base cfg * 1.1; M_base cfg * 1.2].

Definition x_vals (cfg : config) : list R := linspace 0 (D cfg) 100.

(** The curve plotted for one mass [M]. *)
Definition y_vals (cfg : config) (M : R) : py (list R) :=
  a <- pydiv M (lam cfg) ;;
  Ret (map (fun u => a * (cosh (u / a) - 1)) (x_vals cfg)).

(** The loop over [masses]: one curve each. *)
Fixpoint curves (cfg : config) (ms : list R) : py (list (list R)) :=
  match ms with
  | [] => Ret []
  | M :: rest =>
      ys <- y_vals cfg M ;;
      tl <- curves cfg rest ;;
      Ret (ys :: tl)
  end.

End SensitivityAnalysis.

(** ** sensitivity_analysis2.py *)

Module SensitivityAnalysis2.

Record config : Type := {
  D : R;
  lam : R;
  M : R;
  g : R
}.

Definition a (cfg : config) : py R := pydiv (M cfg) (lam cfg).

Definition x_vals (cfg : config) : list R := linspace 0 (D cfg) 100.

(** [L_vals = np.linspace(D + 0.1, D + 5.0, 100)] *)
Definition L_vals (cfg : config) : list R :=
  linspace (D cfg + 0.1) (D cfg + 5.0) 100.

(** One entry of [dy_dx = np.sinh(x_vals / a)]. *)
Definition dy_dx (a u : R) : R := sinh (u / a).

(** One entry of [dy_dM], with [u = (x_vals * lam) / M]; [1 / lam] divides
    Python numbers. *)
Definition dy_dM (cfg : config) (u0 : R) : py R :=
  let u := u0 * lam cfg / M cfg in
  q <- pydiv 1 (lam cfg) ;;
  Ret (q * (cosh u - 1 - u * sinh u)).

(** One entry of [dh_dL = 0.5 * np.sqrt((3 * D) / (8 * (L_vals - D)))]. *)
Definition dh_dL (cfg : config) (L : R) : R :=
  0.5 * sqrt (3 * D cfg / (8 * (L - D cfg))).

End SensitivityAnalysis2.

(** ** elipse_trajetory.py *)

Module EllipseTrajectory.

Record config : Type := {
  D : R;
  H : R;
  L : R
}.

(** [R = np.sqrt(D**2 + H**2)] *)
Definition R_ (cfg : config) : R := sqrt (D cfg ^ 2 + H cfg ^ 2).

(** [A = 4 * (L**2 - H**2)] *)
Definition A (cfg : config) : R := 4 * (L cfg ^ 2 - H cfg ^ 2).

Definition K (cfg : config) (u : R) : R :=
  L cfg ^ 2 - D cfg ^ 2 + 2 * u * D cfg - H cfg ^ 2.

Definition B (cfg : config) (u : R) : R := -4 * K cfg u * H cfg.

Definition C (cfg : config) (u : R) : R :=
  4 * L cfg ^ 2 * u ^ 2 - K cfg u ^ 2.

Definition discriminant (cfg : config) (u : R) : R :=
  B cfg u ^ 2 - 4 * A cfg * C cfg u.

(** One pass of the loop; [None] stands for [np.nan]. *)
Definition y_at (cfg : config) (u : R) : option R :=
  if Rlt_dec (discriminant cfg u) 0 then None
  else Some ((- B cfg u - sqrt (discriminant cfg u)) / (2 * A cfg)).

Definition x_vals (cfg : config) : list R := linspace 0 (D cfg) 200.

Fixpoint loop (cfg : config) (xs : list R) (y_vals : list (option R))
    : list (option R) :=
  match xs with
  | [] => y_vals
  | u :: rest => loop cfg rest (y_vals ++ [y_at cfg u])
  end.

(** The script up to the plot: the length check, then the loop. *)
Definition main (cfg : config) : py (list (option R)) :=
  if Rle_dec (L cfg) (R_ cfg) then Raise ValueError
  else Ret (loop cfg (x_vals cfg) []).

End EllipseTrajectory.

(** A frame shows the position it was asked for and the height
    [solve_state] answers there. *)
Definition shows (sp : scipy) (cfg : Simulation01.config) (M_cw u : R)
    (f : Simulation01Frames.frame) : Prop :=
  exists state,
    Simulation01.solve_state sp cfg M_cw u = Ret state /\
    Simulation01Frames.frame_x_g f = u /\
    Simulation01Frames.frame_y_g f = height_of state.

(** * Properties *)

(** ** The exception monad *)

Lemma bind_Ret {A B : Type} (a : A) (k : A -> py B) :
  (v <- Ret a ;; k v) = k a.
Proof. reflexivity. Qed.

Lemma bind_returns {A B : Type} (c : py A) (k : A -> py B) (b : B) :
  (v <- c ;; k v) = Ret b -> exists a, c = Ret a /\ k a = Ret b.
Proof.
  destruct c as [a | e]; simpl; intros E.
  - exists a. split; [reflexivity | exact E].
  - discriminate E.
Qed.

Lemma try_except_total {A : Type} (body : py A) (a : A) :
  exists r, try_except body (Ret a) = Ret r.
Proof.
  destruct body as [r | e]; simpl; eauto.
Qed.

Lemma pydiv_nonzero (n d : R) : d <> 0 -> pydiv n d = Ret (n / d).
Proof.
  intros Hd. unfold pydiv. destruct (Req_dec_T d 0); [contradiction | reflexivity].
Qed.

Lemma raises_not_Ret {A : Type} (a : A) : ~ raises (Ret a).
Proof. intros [e He]. discriminate He. Qed.

(** ** The sample grid *)

Lemma linspace_length (start stop : R) (num : nat) :
  length (linspace start stop num) = num.
Proof.
  destruct num as [| [| k]]; simpl; try reflexivity.
  rewrite length_app, length_map, length_seq. simpl. lia.
Qed.

Lemma linspace_first (start stop : R) (k : nat) :
  nth 0 (linspace start stop (S (S k))) 0 = start.
Proof.
  simpl. lra.
Qed.

Lemma linspace_last (start stop : R) (k : nat) :
  last (linspace start stop (S (S k))) 0 = stop.
Proof.
  unfold linspace. apply last_last.
Qed.

(** ** [solve_gondola_position], branch by branch *)

Section Branches.

Variables (sp : scipy) (g x_g M_cw D H m_g lam : R).

Lemma solve_left_boundary :
  x_g <= 0 -> solve_gondola_position sp g x_g M_cw D H m_g lam = Ret (Some 0).
Proof.
  intros Hx. unfold solve_gondola_position.
  destruct (Rle_dec x_g 0); [reflexivity | contradiction].
Qed.

Lemma solve_right_boundary :
  0 < D -> x_g >= D ->
  solve_gondola_position sp g x_g M_cw D H m_g lam = Ret (Some H).
Proof.
  intros HD Hx. unfold solve_gondola_position.
  destruct (Rle_dec x_g 0); [lra |].
  destruct (Rge_dec x_g D); [reflexivity | contradiction].
Qed.

Lemma vars_guess_interior :
  0 < x_g < D ->
  vars_guess g x_g M_cw D H = Ret (H / D * x_g, M_cw * g, 0, D).
Proof.
  intros Hx. unfold vars_guess.
  rewrite pydiv_nonzero by lra. reflexivity.
Qed.

(** Strictly inside the span the function is the guarded call of [root]. *)
Lemma solve_interior :
  0 < x_g < D ->
  solve_gondola_position sp g x_g M_cw D H m_g lam =
  try_except
    (sol <- root_lm sp (system g x_g M_cw D H m_g lam)
              (H / D * x_g, M_cw * g, 0, D) ;;
     if success sol then Ret (Some (fst (fst (fst (x sol))))) else Ret None)
    (Ret None).
Proof.
  intros Hx. unfold solve_gondola_position.
  destruct (Rle_dec x_g 0); [lra |].
  destruct (Rge_dec x_g D); [lra |].
  rewrite vars_guess_interior by exact Hx. reflexivity.
Qed.

Lemma solve_total :
  exists o, solve_gondola_position sp g x_g M_cw D H m_g lam = Ret o.
Proof.
  destruct (Rle_dec x_g 0) as [Hle | Hgt].
  - exists (Some 0). now apply solve_left_boundary.
  - destruct (Rge_dec x_g D) as [Hge | Hlt].
    + exists (Some H). unfold solve_gondola_position.
      destruct (Rle_dec x_g 0); [contradiction |].
      destruct (Rge_dec x_g D); [reflexivity | contradiction].
    + rewrite solve_interior by lra. apply try_except_total.
Qed.

End Branches.

(** ** The two loops *)

Lemma static_loop_spec (a : R) (xs acc : list R) :
  static_loop a xs acc = acc ++ map (static_height a) xs.
Proof.
  revert acc. induction xs as [| x0 rest IH]; intros acc; simpl.
  - now rewrite app_nil_r.
  - rewrite IH, <- app_assoc. reflexivity.
Qed.

Lemma trajectory_loop_spec (sp : scipy) (cfg : config) (a M : R)
    (xs acc : list R) :
  trajectory_loop sp cfg a M xs acc =
  Ret (acc ++ map (sample_height sp cfg a M) xs).
Proof.
  revert acc. induction xs as [| x0 rest IH]; intros acc; simpl.
  - now rewrite app_nil_r.
  - unfold sample_height at 1.
    destruct (solve_total sp (g cfg) x0 M (D cfg) (H cfg)
                (m_gondola cfg) (lam cfg)) as [o Ho].
    rewrite Ho. simpl. rewrite IH, <- app_assoc.
    destruct o; reflexivity.
Qed.

(** ** Bounds on the hyperbolic cosine *)

Lemma cosh_lower (t : R) : -2 < t < 2 -> t <> 0 -> 1 + t * t / 4 < cosh t.
Proof.
  intros Ht Hn. unfold cosh.
  assert (E1 : exp t = exp (t / 2) * exp (t / 2)).
  { rewrite <- exp_plus. f_equal. lra. }
  assert (E2 : exp (- t) = exp (- (t / 2)) * exp (- (t / 2))).
  { rewrite <- exp_plus. f_equal. lra. }
  assert (L1 : 1 + t / 2 < exp (t / 2)) by (apply exp_ineq1; lra).
  assert (L2 : 1 + - (t / 2) < exp (- (t / 2))) by (apply exp_ineq1; lra).
  rewrite E1, E2. nra.
Qed.

Lemma cosh_upper (t : R) : -1 < t < 1 -> cosh t <= 1 / (1 - t * t).
Proof.
  intros Ht. unfold cosh.
  assert (P1 := exp_pos t). assert (P2 := exp_pos (- t)).
  assert (L1 := exp_ineq1_le t). assert (L2 := exp_ineq1_le (- t)).
  assert (I : exp t * exp (- t) = 1).
  { rewrite <- exp_plus. replace (t + - t) with 0 by lra. apply exp_0. }
  assert (U1 : exp t <= / (1 - t)).
  { apply Rmult_le_reg_r with (1 - t); [lra |]. rewrite Rinv_l by lra. nra. }
  assert (U2 : exp (- t) <= / (1 + t)).
  { apply Rmult_le_reg_r with (1 + t); [lra |]. rewrite Rinv_l by lra. nra. }
  replace (1 / (1 - t * t)) with ((/ (1 - t) + / (1 + t)) / 2).
  - lra.
  - field. split; nra.
Qed.

Lemma cosh_half_exp (t : R) : (1 + t) / 2 < cosh t.
Proof.
  unfold cosh. assert (P := exp_pos (- t)). assert (L := exp_ineq1_le t). lra.
Qed.

(** ** The objective of the static-rail solver *)

Lemma find_catenary_constant_pos (cfg : config) (a : R) :
  0 < a ->
  find_catenary_constant cfg a = a * (cosh (D cfg / a) - 1) - H cfg.
Proof.
  intros Ha. unfold find_catenary_constant.
  destruct (Rle_dec a 0); [lra | reflexivity].
Qed.

Lemma find_catenary_constant_penalty (cfg : config) (a : R) :
  a <= 0 -> find_catenary_constant cfg a = 1e9.
Proof.
  intros Ha. unfold find_catenary_constant.
  destruct (Rle_dec a 0); [reflexivity | contradiction].
Qed.

Lemma rail_formula_continuous (d h a : R) :
  0 < a -> continuity_pt (fun u => u * (cosh (d / u) - 1) - h) a.
Proof.
  intros Ha. apply derivable_continuous_pt. reg. lra.
Qed.

Lemma find_catenary_constant_continuous (cfg : config) (a : R) :
  0 < a -> continuity_pt (find_catenary_constant cfg) a.
Proof.
  intros Ha.
  apply continuity_pt_locally_ext
    with (f := fun u => u * (cosh (D cfg / u) - 1) - H cfg) (a := a).
  - exact Ha.
  - intros y Hy. symmetry. apply find_catenary_constant_pos.
    unfold Rdist in Hy. apply Rabs_def2 in Hy. lra.
  - now apply rail_formula_continuous.
Qed.

Lemma bracket_sign_change (cfg : config) (lo hi : R) :
  0 < lo -> 0 < hi -> bracket_holds_root cfg lo hi ->
  find_catenary_constant cfg lo * find_catenary_constant cfg hi <= 0.
Proof.
  intros Hlo Hhi [H1 H2].
  rewrite !find_catenary_constant_pos by assumption. nra.
Qed.

(** The bracket of the script holds the root of the shipped configuration. *)
Example slovak_exercise_bracket : bracket_holds_root slovak_exercise 0.1 10000.
Proof.
  unfold bracket_holds_root, slovak_exercise. simpl. split.
  - assert (U := cosh_upper (200 / 10000)).
    assert (U' : cosh (200 / 10000) <= 1 / (1 - 200 / 10000 * (200 / 10000))) by (apply U; lra).
    assert (1 / (1 - 200 / 10000 * (200 / 10000)) <= 1 + 1 / 1000).
    { apply Rmult_le_reg_r with (1 - 200 / 10000 * (200 / 10000)); [lra |].
      unfold Rdiv at 1. rewrite Rmult_1_l, Rinv_l by lra. lra. }
    lra.
  - assert (L := cosh_half_exp (200 / 0.1)). lra.
Qed.

(** ** The static-rail solver *)

Lemma a_static_of_sol_a (sp : scipy) (cfg : config) (r : RootResults) :
  sol_a sp cfg = Ret r -> a_static sp cfg = Ret (root r).
Proof.
  intros E. unfold a_static. rewrite E. reflexivity.
Qed.

Lemma a_static_raises (sp : scipy) (cfg : config) (e : exn) :
  sol_a sp cfg = Raise e -> a_static sp cfg = Raise e.
Proof.
  intros E. unfold a_static. rewrite E. reflexivity.
Qed.

(** C1 (amended).  When the target height lies between the rail heights at
    the two ends of the fixed bracket [0.1, 10000], a [brentq] that honours
    its contract returns [a_static] inside the bracket, and [a_static]
    satisfies the unloaded boundary equation within the tolerance. *)
Theorem static_rail_solver_in_bracket (sp : scipy) (tol : R) (cfg : config) :
  brentq_contract tol (find_catenary_constant cfg) 0.1 10000 (sol_a sp cfg) ->
  bracket_holds_root cfg 0.1 10000 ->
  exists a,
    a_static sp cfg = Ret a /\
    0.1 <= a <= 10000 /\
    Rabs (a * (cosh (D cfg / a) - 1) - H cfg) < tol.
Proof.
  intros [_ Hroot] Hbr.
  destruct Hroot as (r & Hr & Hin & Hres).
  - intros a Ha. apply find_catenary_constant_continuous. lra.
  - lra.
  - apply bracket_sign_change; [lra | lra | exact Hbr].
  - exists (root r). split; [now apply a_static_of_sol_a |].
    split; [exact Hin |].
    rewrite find_catenary_constant_pos in Hres by lra. exact Hres.
Qed.

Lemma taut_rail_bracket : bracket_holds_root taut_rail 0.1 10000.
Proof.
  unfold bracket_holds_root, taut_rail. simpl. split; [lra |].
  assert (U : cosh (200 / 10000) <= 1 / (1 - 200 / 10000 * (200 / 10000)))
    by (apply cosh_upper; lra).
  assert (1 / (1 - 200 / 10000 * (200 / 10000)) <= 1 + 1 / 1000).
  { apply Rmult_le_reg_r with (1 - 200 / 10000 * (200 / 10000)); [lra |].
    unfold Rdiv at 1. rewrite Rmult_1_l, Rinv_l by lra. lra. }
  assert (L := cosh_half_exp (200 / 0.1)). lra.
Qed.

Lemma taut_rail_root : find_catenary_constant taut_rail 10000 = 0.
Proof.
  rewrite find_catenary_constant_pos by lra.
  unfold taut_rail. simpl. lra.
Qed.

Lemma taut_rail_contract :
  brentq_contract 1e-6 (find_catenary_constant taut_rail) 0.1 10000
    (sol_a {| root_scalar := brentq_answers 10000; root_lm := lm_gives_up |}
       taut_rail).
Proof.
  split.
  - rewrite taut_rail_root. lra.
  - intros _ _ _. exists {| root := 10000; converged := true |}.
    split; [reflexivity |]. simpl. split; [lra |].
    rewrite taut_rail_root, Rabs_R0. lra.
Qed.

Lemma static_rail_solver_in_bracket_witness :
  exists a,
    a_static {| root_scalar := brentq_answers 10000; root_lm := lm_gives_up |}
      taut_rail = Ret a /\
    0.1 <= a <= 10000 /\
    Rabs (a * (cosh (D taut_rail / a) - 1) - H taut_rail) < 1e-6.
Proof.
  apply (static_rail_solver_in_bracket
           {| root_scalar := brentq_answers 10000; root_lm := lm_gives_up |}
           1e-6 taut_rail).
  - exact taut_rail_contract.
  - exact taut_rail_bracket.
Defined.

Lemma shallow_rise_reachable :
  exists a, 0 < a /\ a * (cosh (D shallow_rise / a) - 1) = H shallow_rise.
Proof.
  simpl.
  destruct (IVT_interv (fun u => 1 - u * (cosh (200 / u) - 1)) 10000 100000)
    as [z [Hz Hfz]].
  - intros a Ha. apply derivable_continuous_pt. reg. lra.
  - lra.
  - assert (L : 1 + 200 / 10000 * (200 / 10000) / 4 < cosh (200 / 10000))
      by (apply cosh_lower; lra).
    lra.
  - assert (U : cosh (200 / 100000) <= 1 / (1 - 200 / 100000 * (200 / 100000)))
      by (apply cosh_upper; lra).
    assert (1 / (1 - 200 / 100000 * (200 / 100000)) <= 1 + 1 / 200000).
    { apply Rmult_le_reg_r with (1 - 200 / 100000 * (200 / 100000)); [lra |].
      unfold Rdiv at 1. rewrite Rmult_1_l, Rinv_l by lra. lra. }
    lra.
  - exists z. split; lra.
Qed.

Lemma shallow_rise_ends_positive :
  0 < find_catenary_constant shallow_rise 0.1 /\
  0 < find_catenary_constant shallow_rise 10000.
Proof.
  rewrite !find_catenary_constant_pos by lra. simpl. split.
  - assert (L := cosh_half_exp (200 / 0.1)). lra.
  - assert (L : 1 + 200 / 10000 * (200 / 10000) / 4 < cosh (200 / 10000))
      by (apply cosh_lower; lra).
    lra.
Qed.

(** C1 (as stated) fails.  A span of 200 with a rise of 1 is reachable by a
    catenary constant, yet the objective is positive at both ends of the
    bracket [0.1, 10000]: [brentq] raises [ValueError] and the script has no
    [a_static]. *)
Lemma shallow_rise_outside_bracket :
  0 < D shallow_rise /\
  (exists a, 0 < a /\ a * (cosh (D shallow_rise / a) - 1) = H shallow_rise) /\
  0 < find_catenary_constant shallow_rise 0.1 /\
  0 < find_catenary_constant shallow_rise 10000 /\
  (forall sp tol,
     brentq_contract tol (find_catenary_constant shallow_rise) 0.1 10000
       (sol_a sp shallow_rise) ->
     a_static sp shallow_rise = Raise ValueError).
Proof.
  destruct shallow_rise_ends_positive as [Hlo Hhi].
  split; [simpl; lra |].
  split; [exact shallow_rise_reachable |].
  split; [exact Hlo |]. split; [exact Hhi |].
  intros sp tol [Hsign _]. apply a_static_raises, Hsign.
  now apply Rmult_lt_0_compat.
Qed.

(** ** Outcomes of the guarded call *)

Section Outcomes.

Variables (sp : scipy) (g x_g M_cw D H m_g lam : R).

Let call : py OptimizeResult :=
  root_lm sp (system g x_g M_cw D H m_g lam) (H / D * x_g, M_cw * g, 0, D).

Lemma solve_converged (sol : OptimizeResult) :
  0 < x_g < D -> call = Ret sol -> success sol = true ->
  solve_gondola_position sp g x_g M_cw D H m_g lam =
  Ret (Some (fst (fst (fst (x sol))))).
Proof.
  intros Hx Hcall Hs. rewrite solve_interior by exact Hx.
  fold call. rewrite Hcall. simpl. rewrite Hs. reflexivity.
Qed.

Lemma solve_not_converged :
  0 < x_g < D -> not_converged call ->
  solve_gondola_position sp g x_g M_cw D H m_g lam = Ret None.
Proof.
  intros Hx Hnc. rewrite solve_interior by exact Hx. fold call.
  destruct Hnc as [(sol & Hcall & Hs) | [e He]].
  - rewrite Hcall. simpl. rewrite Hs. reflexivity.
  - rewrite He. reflexivity.
Qed.

End Outcomes.

(** ** The sweep, sample by sample *)

Lemma nth_map_in_range {A : Type} (f : A -> R) (l : list A) (d : A) (i : nat) :
  (i < length l)%nat -> nth i (map f l) 0 = f (nth i l d).
Proof.
  intros Hi. rewrite (nth_indep (map f l) 0 (f d)) by (now rewrite length_map).
  apply map_nth.
Qed.

Lemma x_vals_length (cfg : config) : length (x_vals cfg) = 50%nat.
Proof. apply linspace_length. Qed.

Lemma x_vals_first (cfg : config) : nth 0 (x_vals cfg) 0 = 0.
Proof. apply linspace_first. Qed.

Lemma x_vals_last (cfg : config) : last (x_vals cfg) 0 = D cfg.
Proof. apply linspace_last. Qed.

Lemma last_map_nonempty (f : R -> R) (l : list R) :
  l <> [] -> last (map f l) 0 = f (last l 0).
Proof.
  intros Hl. destruct (exists_last Hl) as (l' & z & ->).
  rewrite map_app. simpl. now rewrite !last_last.
Qed.

Lemma sweep_returns (sp : scipy) (cfg : config) (a M : R) :
  trajectory_loop sp cfg a M (x_vals cfg) [] =
  Ret (map (sample_height sp cfg a M) (x_vals cfg)).
Proof. apply trajectory_loop_spec. Qed.

Lemma sample_height_left (sp : scipy) (cfg : config) (a M x0 : R) :
  x0 <= 0 -> sample_height sp cfg a M x0 = 0.
Proof.
  intros Hx. unfold sample_height. now rewrite solve_left_boundary.
Qed.

Lemma sample_height_right (sp : scipy) (cfg : config) (a M x0 : R) :
  0 < D cfg -> x0 >= D cfg -> sample_height sp cfg a M x0 = H cfg.
Proof.
  intros HD Hx. unfold sample_height. now rewrite solve_right_boundary.
Qed.

Lemma sample_height_fallback (sp : scipy) (cfg : config) (a M x0 : R) :
  0 < x0 < D cfg ->
  not_converged
    (root_lm sp
       (system (g cfg) x0 M (D cfg) (H cfg) (m_gondola cfg) (lam cfg))
       (H cfg / D cfg * x0, M * g cfg, 0, D cfg)) ->
  sample_height sp cfg a M x0 = static_height a x0.
Proof.
  intros Hx Hnc. unfold sample_height.
  now rewrite solve_not_converged.
Qed.

(** C3.  [solve_gondola_position] answers [0.0] at or left of the lower
    station and [H] at or right of the upper one, whatever the solver is,
    and the sweep over [x_vals] starts at height 0 and ends at height [H]
    exactly. *)
Theorem boundary_heights_exact (sp : scipy) (cfg : config) (a M : R)
    (g M_cw D H m_g lam : R) :
  0 < D -> 0 < RealisticModel.D cfg ->
  (forall x_g, x_g <= 0 ->
     solve_gondola_position sp g x_g M_cw D H m_g lam = Ret (Some 0)) /\
  (forall x_g, x_g >= D ->
     solve_gondola_position sp g x_g M_cw D H m_g lam = Ret (Some H)) /\
  (forall sp' x_g, x_g <= 0 \/ x_g >= D ->
     solve_gondola_position sp' g x_g M_cw D H m_g lam =
     solve_gondola_position sp g x_g M_cw D H m_g lam) /\
  exists ys,
    trajectory_loop sp cfg a M (x_vals cfg) [] = Ret ys /\
    nth 0 (x_vals cfg) 0 = 0 /\ nth 0 ys 0 = 0 /\
    last (x_vals cfg) 0 = RealisticModel.D cfg /\
    last ys 0 = RealisticModel.H cfg.
Proof.
  intros HD HDc. repeat split.
  - intros x_g Hx. now apply solve_left_boundary.
  - intros x_g Hx. now apply solve_right_boundary.
  - intros sp' x_g [Hx | Hx].
    + now rewrite !solve_left_boundary.
    + now rewrite !solve_right_boundary.
  - exists (map (sample_height sp cfg a M) (x_vals cfg)).
    split; [apply sweep_returns |].
    split; [apply x_vals_first |].
    split.
    + rewrite (nth_map_in_range _ _ 0) by (rewrite x_vals_length; lia).
      rewrite x_vals_first. apply sample_height_left. lra.
    + split; [apply x_vals_last |].
      rewrite last_map_nonempty.
      * rewrite x_vals_last. apply sample_height_right; lra.
      * intros E. apply (f_equal (@length R)) in E.
        rewrite x_vals_length in E. discriminate E.
Qed.

Lemma boundary_heights_exact_witness :
  solve_gondola_position
    {| root_scalar := brentq_answers 400; root_lm := lm_raises |}
    9.81 0 2000 200 50 500 5 = Ret (Some 0) /\
  solve_gondola_position
    {| root_scalar := brentq_answers 400; root_lm := lm_raises |}
    9.81 200 2000 200 50 500 5 = Ret (Some 50).
Proof.
  destruct (boundary_heights_exact
              {| root_scalar := brentq_answers 400; root_lm := lm_raises |}
              slovak_exercise 400 2000 9.81 2000 200 50 500 5)
    as (Hl & Hr & _).
  - lra.
  - simpl. lra.
  - split; [apply Hl | apply Hr]; lra.
Defined.

(** C5.  At every interior sample where [root] reports failure or raises,
    the sweep records the static rail height
    [a_static * (cosh(x_g / a_static) - 1)], and the sweep returns one
    height for each of the 50 samples. *)
Theorem fallback_is_static_rail (sp : scipy) (cfg : config) (a M : R) :
  exists ys,
    trajectory_loop sp cfg a M (x_vals cfg) [] = Ret ys /\
    length ys = length (x_vals cfg) /\
    length (x_vals cfg) = 50%nat /\
    forall i x_g,
      (i < 50)%nat -> nth i (x_vals cfg) 0 = x_g -> 0 < x_g < D cfg ->
      not_converged
        (root_lm sp
           (system (g cfg) x_g M (D cfg) (H cfg) (m_gondola cfg) (lam cfg))
           (H cfg / D cfg * x_g, M * g cfg, 0, D cfg)) ->
      nth i ys 0 = a * (cosh (x_g / a) - 1).
Proof.
  exists (map (sample_height sp cfg a M) (x_vals cfg)).
  split; [apply sweep_returns |].
  split; [apply length_map |].
  split; [apply x_vals_length |].
  intros i x_g Hi Hnth Hx Hnc.
  rewrite (nth_map_in_range _ _ 0) by (rewrite x_vals_length; exact Hi).
  rewrite Hnth. now apply sample_height_fallback.
Qed.

Lemma fallback_is_static_rail_witness :
  exists ys,
    trajectory_loop
      {| root_scalar := brentq_answers 400; root_lm := lm_gives_up |}
      slovak_exercise 400 2000 (x_vals slovak_exercise) [] = Ret ys /\
    nth 1 ys 0 =
    400 * (cosh (nth 1 (x_vals slovak_exercise) 0 / 400) - 1).
Proof.
  destruct (fallback_is_static_rail
              {| root_scalar := brentq_answers 400; root_lm := lm_gives_up |}
              slovak_exercise 400 2000)
    as (ys & Hret & _ & _ & Hfb).
  exists ys. split; [exact Hret |].
  apply Hfb.
  - lia.
  - reflexivity.
  - simpl. lra.
  - left. eexists. split; reflexivity.
Defined.

(** ** Exceptions never leave [solve_gondola_position] *)






(** ** Counterweight sizing *)

Lemma main_returns (sp : scipy) (cfg : config) (s : RootResults) :
  sol_a sp cfg = Ret s ->
  main sp cfg =
  Ret {| res_a_static := root s;
         res_M_counterweight := M_counterweight (root s) cfg;
         res_x_vals := x_vals cfg;
         res_y_static := static_loop (root s) (x_vals cfg) [];
         res_y_trajectory :=
           map (sample_height sp cfg (root s)
                  (M_counterweight (root s) cfg)) (x_vals cfg) |}.
Proof.
  intros Hs. unfold main.
  rewrite (a_static_of_sol_a _ _ _ Hs), bind_Ret.
  rewrite sweep_returns. reflexivity.
Qed.

(** C7.  The counterweight mass is the product [a_static * lam] and the
    base tension is [M_cw * g], in both scripts; a run of
    [realistic_model.py] whose static solve returns reports exactly that
    product. *)
Theorem counterweight_is_product (sp : scipy) (cfg : config) :
  (forall a,
     M_counterweight a cfg = a * lam cfg /\
     base_tension (M_counterweight a cfg) cfg = a * lam cfg * g cfg) /\
  (forall cfg1 a, Simulation01.M_cw a cfg1 = a * Simulation01.lam cfg1) /\
  (forall s, sol_a sp cfg = Ret s ->
     exists r,
       main sp cfg = Ret r /\
       res_a_static r = root s /\
       res_M_counterweight r = res_a_static r * lam cfg).
Proof.
  split; [intros a; split; reflexivity |].
  split; [reflexivity |].
  intros s Hs. eexists. split; [exact (main_returns sp cfg s Hs) |].
  split; reflexivity.
Qed.

Lemma counterweight_is_product_witness :
  exists r,
    main {| root_scalar := brentq_answers 400; root_lm := lm_gives_up |}
      slovak_exercise = Ret r /\
    res_a_static r = 400 /\
    res_M_counterweight r = res_a_static r * 5.
Proof.
  destruct (counterweight_is_product
              {| root_scalar := brentq_answers 400; root_lm := lm_gives_up |}
              slovak_exercise) as (_ & _ & Hmain).
  apply (Hmain {| root := 400; converged := true |}).
  reflexivity.
Defined.

(** ** The counterweight does not depend on the load *)

Lemma find_catenary_constant_same_geometry (cfg1 cfg2 : config) :
  D cfg1 = D cfg2 -> H cfg1 = H cfg2 ->
  find_catenary_constant cfg1 = find_catenary_constant cfg2.
Proof.
  intros HD HH. unfold find_catenary_constant. rewrite HD, HH. reflexivity.
Qed.

(** C10.  Two configurations with the same [D], [H] and [lam] give the same
    [a_static] and the same counterweight mass, whatever their gondola
    masses and gravities are; the objective of
    [graph_trajectory_counterweight.py], which has neither constant, is the
    same function. *)
Theorem counterweight_ignores_load_and_gravity (sp : scipy)
    (cfg1 cfg2 : config) :
  D cfg1 = D cfg2 -> H cfg1 = H cfg2 -> lam cfg1 = lam cfg2 ->
  a_static sp cfg1 = a_static sp cfg2 /\
  (a <- a_static sp cfg1 ;; Ret (M_counterweight a cfg1)) =
  (a <- a_static sp cfg2 ;; Ret (M_counterweight a cfg2)) /\
  (forall r1 r2, main sp cfg1 = Ret r1 -> main sp cfg2 = Ret r2 ->
     res_a_static r1 = res_a_static r2 /\
     res_M_counterweight r1 = res_M_counterweight r2) /\
  (forall gcfg,
     GraphTrajectory.D gcfg = D cfg1 ->
     GraphTrajectory.H_tower gcfg = H cfg1 ->
     GraphTrajectory.find_a gcfg = find_catenary_constant cfg1).
Proof.
  intros HD HH Hlam.
  assert (Ea : a_static sp cfg1 = a_static sp cfg2).
  { unfold a_static, sol_a.
    now rewrite (find_catenary_constant_same_geometry cfg1 cfg2). }
  split; [exact Ea |].
  split.
  { rewrite Ea. unfold M_counterweight. rewrite Hlam. reflexivity. }
  split.
  - intros r1 r2 H1 H2. unfold main in H1, H2.
    apply bind_returns in H1. destruct H1 as (a1 & Ha1 & H1).
    apply bind_returns in H2. destruct H2 as (a2 & Ha2 & H2).
    apply bind_returns in H1. destruct H1 as (y1 & _ & H1).
    apply bind_returns in H2. destruct H2 as (y2 & _ & H2).
    injection H1 as <-. injection H2 as <-. simpl.
    rewrite Ea, Ha2 in Ha1. injection Ha1 as ->.
    unfold M_counterweight. rewrite Hlam. split; reflexivity.
  - intros gcfg GD GH. unfold GraphTrajectory.find_a, find_catenary_constant.
    rewrite GD, GH. reflexivity.
Qed.

Lemma counterweight_ignores_load_and_gravity_witness :
  a_static {| root_scalar := brentq_answers 400; root_lm := lm_gives_up |}
    slovak_exercise =
  a_static {| root_scalar := brentq_answers 400; root_lm := lm_gives_up |}
    {| D := 200; H := 50; m_gondola := 0; lam := 5; g := 1.62 |}.
Proof.
  apply (counterweight_ignores_load_and_gravity
           {| root_scalar := brentq_answers 400; root_lm := lm_gives_up |}
           slovak_exercise
           {| D := 200; H := 50; m_gondola := 0; lam := 5; g := 1.62 |});
    reflexivity.
Defined.

(** ** The seed of the loaded solve *)

(** C8 (as stated) fails.  In [realistic_model.py] the seeded height at
    [x_g = 100] is the linear interpolation itself: no positive sag bias is
    subtracted. *)
Lemma realistic_seed_has_no_sag_bias :
  ~ (exists bias, 0 < bias /\
       vars_guess 9.81 100 2000 200 50 =
       Ret (50 / 200 * 100 - bias, 2000 * 9.81, 0, 200)).
Proof.
  intros (bias & Hpos & E).
  rewrite vars_guess_interior in E by lra.
  injection E as E. lra.
Qed.

Lemma simulation01_guess_interior (cfg : Simulation01.config) (M x_g : R) :
  0 < x_g < Simulation01.D cfg ->
  Simulation01.guess cfg M x_g =
  Ret (Simulation01.Tower_H cfg / Simulation01.D cfg * x_g - 5,
       M * Simulation01.g cfg, 0, Simulation01.D cfg).
Proof.
  intros Hx. unfold Simulation01.guess.
  rewrite pydiv_nonzero by lra. reflexivity.
Qed.

(** C8 (amended).  Inside the span the seed is rebuilt from [x_g] and the
    constants alone: linear interpolation [H/D * x_g] for the height, with
    nothing subtracted in [realistic_model.py] and 5 subtracted in
    [simulation_01_general.py]; [M_cw * g] for the tension; 0 for [c1];
    [D] for [c2].  That seed is what [root] receives, and the height the
    sweep records for a sample does not depend on the samples before it. *)
Theorem seed_is_rebuilt_per_sample (sp : scipy) (g x_g M_cw D H m_g lam : R)
    (cfg1 : Simulation01.config) (cfg : config) (a M : R) :
  0 < x_g < D -> 0 < x_g < Simulation01.D cfg1 ->
  vars_guess g x_g M_cw D H = Ret (H / D * x_g, M_cw * g, 0, D) /\
  solve_gondola_position sp g x_g M_cw D H m_g lam =
    try_except
      (sol <- root_lm sp (system g x_g M_cw D H m_g lam)
                (H / D * x_g, M_cw * g, 0, D) ;;
       if success sol then Ret (Some (fst (fst (fst (x sol))))) else Ret None)
      (Ret None) /\
  Simulation01.guess cfg1 M_cw x_g =
    Ret (Simulation01.Tower_H cfg1 / Simulation01.D cfg1 * x_g - 5,
         M_cw * Simulation01.g cfg1, 0, Simulation01.D cfg1) /\
  Simulation01.solve_state sp cfg1 M_cw x_g =
    (sol <- root_lm sp (Simulation01.system cfg1 M_cw x_g)
              (Simulation01.Tower_H cfg1 / Simulation01.D cfg1 * x_g - 5,
               M_cw * Simulation01.g cfg1, 0, Simulation01.D cfg1) ;;
     Ret (if success sol then x sol
          else (Simulation01.Tower_H cfg1 / Simulation01.D cfg1 * x_g - 5,
                M_cw * Simulation01.g cfg1, 0, Simulation01.D cfg1))) /\
  (forall before,
     trajectory_loop sp cfg a M (before ++ [x_g]) [] =
     Ret (map (sample_height sp cfg a M) before ++
          [sample_height sp cfg a M x_g])).
Proof.
  intros Hx Hx1.
  split; [now apply vars_guess_interior |].
  split; [now apply solve_interior |].
  split; [now apply simulation01_guess_interior |].
  split.
  - unfold Simulation01.solve_state.
    rewrite simulation01_guess_interior by exact Hx1. reflexivity.
  - intros before. rewrite trajectory_loop_spec, map_app. reflexivity.
Qed.

Lemma seed_is_rebuilt_per_sample_witness :
  vars_guess 9.81 100 2000 200 50 = Ret (50 / 200 * 100, 2000 * 9.81, 0, 200) /\
  Simulation01.guess
    {| Simulation01.D := 200; Simulation01.Tower_H := 50;
       Simulation01.m_g := 500; Simulation01.lam := 5;
       Simulation01.g := 9.81 |} 2000 100 =
  Ret (50 / 200 * 100 - 5, 2000 * 9.81, 0, 200).
Proof.
  destruct (seed_is_rebuilt_per_sample scipy_failing 9.81 100 2000 200 50 500 5
              {| Simulation01.D := 200; Simulation01.Tower_H := 50;
                 Simulation01.m_g := 500; Simulation01.lam := 5;
                 Simulation01.g := 9.81 |}
              slovak_exercise 400 2000)
    as (Hr & _ & Hs & _).
  - lra.
  - simpl. lra.
  - split; [exact Hr | exact Hs].
Defined.

(** ** What the sweep's output records *)

Lemma sample_height_converged (sp : scipy) (cfg : config) (a M x0 : R)
    (sol : OptimizeResult) :
  0 < x0 < D cfg ->
  root_lm sp
    (system (g cfg) x0 M (D cfg) (H cfg) (m_gondola cfg) (lam cfg))
    (H cfg / D cfg * x0, M * g cfg, 0, D cfg) = Ret sol ->
  success sol = true ->
  sample_height sp cfg a M x0 = fst (fst (fst (x sol))).
Proof.
  intros Hx Hcall Hs. unfold sample_height.
  now rewrite (solve_converged _ _ _ _ _ _ _ _ sol).
Qed.

Lemma sample_height_outside (sp1 sp2 : scipy) (cfg : config) (a M x0 : R) :
  ~ 0 < x0 < D cfg ->
  sample_height sp1 cfg a M x0 = sample_height sp2 cfg a M x0.
Proof.
  intros Hout. unfold sample_height, solve_gondola_position.
  destruct (Rle_dec x0 0); [reflexivity |].
  destruct (Rge_dec x0 (D cfg)); [reflexivity | lra].
Qed.

(** A failing run and a run converging onto the rail record the same
    heights. *)
Lemma same_heights_either_way (sp1 sp2 : scipy) (cfg : config) (a M : R)
    (xs : list R) :
  (forall x_g, In x_g xs -> 0 < x_g < D cfg ->
     not_converged
       (root_lm sp1
          (system (g cfg) x_g M (D cfg) (H cfg) (m_gondola cfg) (lam cfg))
          (H cfg / D cfg * x_g, M * g cfg, 0, D cfg)) /\
     exists sol,
       root_lm sp2
         (system (g cfg) x_g M (D cfg) (H cfg) (m_gondola cfg) (lam cfg))
         (H cfg / D cfg * x_g, M * g cfg, 0, D cfg) = Ret sol /\
       success sol = true /\
       fst (fst (fst (x sol))) = static_height a x_g) ->
  map (sample_height sp1 cfg a M) xs = map (sample_height sp2 cfg a M) xs.
Proof.
  intros Hall. apply map_ext_in. intros x0 Hin.
  destruct (Rlt_dec 0 x0) as [H0 |];
    [destruct (Rlt_dec x0 (D cfg)) as [H1 |] |].
  - destruct (Hall x0 Hin (conj H0 H1)) as (Hnc & sol & Hcall & Hs & Hy).
    rewrite (sample_height_fallback sp1) by (try split; assumption).
    rewrite (sample_height_converged sp2 _ _ _ _ sol) by (try split; assumption).
    now rewrite Hy.
  - apply sample_height_outside. lra.
  - apply sample_height_outside. lra.
Qed.

(** C6 (amended).  The sweep returns the 50 heights and nothing else: when
    [root] fails at the interior samples in one run and converges onto the
    static rail height there in another, the two runs return the same
    list. *)
Theorem sweep_output_hides_status (sp1 sp2 : scipy) (cfg : config) (a M : R) :
  (forall x_g, In x_g (x_vals cfg) -> 0 < x_g < D cfg ->
     not_converged
       (root_lm sp1
          (system (g cfg) x_g M (D cfg) (H cfg) (m_gondola cfg) (lam cfg))
          (H cfg / D cfg * x_g, M * g cfg, 0, D cfg)) /\
     exists sol,
       root_lm sp2
         (system (g cfg) x_g M (D cfg) (H cfg) (m_gondola cfg) (lam cfg))
         (H cfg / D cfg * x_g, M * g cfg, 0, D cfg) = Ret sol /\
       success sol = true /\
       fst (fst (fst (x sol))) = static_height a x_g) ->
  exists ys,
    trajectory_loop sp1 cfg a M (x_vals cfg) [] = Ret ys /\
    trajectory_loop sp2 cfg a M (x_vals cfg) [] = Ret ys /\
    length ys = 50%nat.
Proof.
  intros Hall. exists (map (sample_height sp1 cfg a M) (x_vals cfg)).
  split; [apply sweep_returns |].
  split.
  - rewrite sweep_returns. f_equal. symmetry.
    now apply same_heights_either_way.
  - rewrite length_map. apply x_vals_length.
Qed.

Lemma failing_and_on_rail (x_g M : R) :
  0 < x_g < D slovak_exercise ->
  not_converged
    (root_lm scipy_failing
       (system (g slovak_exercise) x_g M (D slovak_exercise)
          (H slovak_exercise) (m_gondola slovak_exercise)
          (lam slovak_exercise))
       (H slovak_exercise / D slovak_exercise * x_g,
        M * g slovak_exercise, 0, D slovak_exercise)) /\
  exists sol,
    root_lm scipy_on_rail
      (system (g slovak_exercise) x_g M (D slovak_exercise)
         (H slovak_exercise) (m_gondola slovak_exercise)
         (lam slovak_exercise))
      (H slovak_exercise / D slovak_exercise * x_g,
       M * g slovak_exercise, 0, D slovak_exercise) = Ret sol /\
    success sol = true /\
    fst (fst (fst (x sol))) = static_height 400 x_g.
Proof.
  intros Hx. split.
  - left. eexists. split; reflexivity.
  - eexists. split; [reflexivity |]. split; [reflexivity |].
    simpl. unfold static_height. do 3 f_equal. lra.
Qed.

Lemma sweep_output_hides_status_witness :
  exists ys,
    trajectory_loop scipy_failing slovak_exercise 400 2000
      (x_vals slovak_exercise) [] = Ret ys /\
    trajectory_loop scipy_on_rail slovak_exercise 400 2000
      (x_vals slovak_exercise) [] = Ret ys /\
    length ys = 50%nat.
Proof.
  apply (sweep_output_hides_status scipy_failing scipy_on_rail
           slovak_exercise 400 2000).
  intros x_g _ Hx. now apply failing_and_on_rail.
Defined.

(** C6 (as stated) fails.  On the shipped configuration a run in which
    every loaded solve fails and a run in which every loaded solve converges
    return the very same results, so the results do not tell a fallen-back
    sample from a converged one. *)
Lemma status_not_in_results :
  (exists r,
     main scipy_failing slovak_exercise = Ret r /\
     main scipy_on_rail slovak_exercise = Ret r) /\
  (forall F x0, exists s1 s2,
     root_lm scipy_failing F x0 = Ret s1 /\ success s1 = false /\
     root_lm scipy_on_rail F x0 = Ret s2 /\ success s2 = true).
Proof.
  split.
  - eexists. split.
    + apply (main_returns scipy_failing slovak_exercise
               {| root := 400; converged := true |}). reflexivity.
    + rewrite (main_returns scipy_on_rail slovak_exercise
                 {| root := 400; converged := true |}) by reflexivity.
      f_equal. f_equal. symmetry. apply same_heights_either_way.
      intros x_g _ Hx. now apply failing_and_on_rail.
  - intros F [[[y0 H0] c1] c2]. do 2 eexists.
    repeat split; reflexivity.
Qed.

(** ** The residuals of the loaded system *)

Lemma cosh_even (t : R) : cosh (- t) = cosh t.
Proof.
  unfold cosh. rewrite Ropp_involutive. lra.
Qed.

Lemma system_residuals (g x_g M_cw D H m_g lam y_g H_tension c1 c2 : R) :
  system g x_g M_cw D H m_g lam (y_g, H_tension, c1, c2) =
  let a := Spec.catenary_constant H_tension lam g in
  (y_g - Spec.catenary_height a c1 x_g,
   H - Spec.right_segment a c2 x_g y_g D,
   H_tension * (Spec.catenary_slope a c2 x_g - Spec.catenary_slope a c1 x_g)
     - m_g * g,
   H_tension * sqrt (1 + Spec.catenary_slope a c1 0 ^ 2) - M_cw * g).
Proof. reflexivity. Qed.

Lemma simulation01_system_residuals (cfg : Simulation01.config)
    (M x_g y_g H_tension c1 c2 : R) :
  Simulation01.system cfg M x_g (y_g, H_tension, c1, c2) =
  system (Simulation01.g cfg) x_g M (Simulation01.D cfg)
    (Simulation01.Tower_H cfg) (Simulation01.m_g cfg) (Simulation01.lam cfg)
    (y_g, H_tension, c1, c2).
Proof.
  unfold Simulation01.system, system.
  replace (0 - c1) with (- c1) by lra. reflexivity.
Qed.

Lemma within_equilibrium (tol g x_g M_cw D H m_g lam : R) (v : vars4) :
  within tol (system g x_g M_cw D H m_g lam v) ->
  Spec.equilibrium_within tol g x_g M_cw D H m_g lam v.
Proof.
  destruct v as [[[y_g H_tension] c1] c2].
  rewrite system_residuals. unfold within, Spec.equilibrium_within.
  cbv zeta. intros (R1 & R2 & R3 & R4).
  rewrite (Rabs_minus_sym (Spec.catenary_height _ _ _)).
  rewrite (Rabs_minus_sym (Spec.right_segment _ _ _ _ _)).
  repeat split; assumption.
Qed.

Lemma within_tension_positive (tol g x_g M_cw D H m_g lam : R) (v : vars4) :
  tol <= M_cw * g ->
  within tol (system g x_g M_cw D H m_g lam v) ->
  0 < tension_of v.
Proof.
  destruct v as [[[y_g H_tension] c1] c2].
  rewrite system_residuals. unfold within, tension_of. cbv zeta. cbn [fst snd].
  intros Htol (_ & _ & _ & R4).
  apply Rabs_def2 in R4.
  set (s := sqrt (1 + Spec.catenary_slope
                         (Spec.catenary_constant H_tension lam g) c1 0 ^ 2))
    in R4.
  assert (Hs : 0 <= s) by apply sqrt_pos.
  destruct (Rlt_dec 0 H_tension) as [Hp | Hn]; [exact Hp |].
  assert (Hprod : H_tension * s <= 0).
  { rewrite <- (Rmult_0_l s). apply Rmult_le_compat_r; lra. }
  lra.
Qed.

Lemma vars4_eq (a b c d a' b' c' d' : R) :
  a = a' -> b = b' -> c = c' -> d = d' -> (a, b, c, d) = (a', b', c', d').
Proof. intros -> -> -> ->. reflexivity. Qed.

Lemma hanging_rail_residuals :
  system 1 1 1 2 (cosh 2 - 1) 0 1 hanging_rail = (0, 0, 0, 0).
Proof.
  unfold system, hanging_rail.
  replace (1 / (1 * 1)) with 1 by lra.
  replace ((1 - 0) / 1) with 1 by lra.
  replace ((2 - 0) / 1) with 2 by lra.
  replace (- 0 / 1) with 0 by lra.
  replace ((0 - 0) / 1) with 0 by lra.
  rewrite cosh_0, sinh_0.
  replace (1 + 0 ^ 2) with 1 by lra.
  rewrite sqrt_1.
  apply vars4_eq; lra.
Qed.

Lemma hanging_rail_converged :
  converged_within 1e-6 (system 1 1 1 2 (cosh 2 - 1) 0 1)
    {| x := hanging_rail; success := true |}.
Proof.
  split; [reflexivity |]. cbn [x].
  rewrite hanging_rail_residuals. unfold within.
  rewrite Rabs_R0. repeat split; lra.
Qed.

Lemma equilibrium_residuals (tol g x_g M_cw D H m_g lam : R) (v : vars4) :
  Spec.equilibrium_within tol g x_g M_cw D H m_g lam v ->
  within tol (system g x_g M_cw D H m_g lam v).
Proof.
  destruct v as [[[y_g H_tension] c1] c2].
  rewrite system_residuals. unfold within, Spec.equilibrium_within.
  cbv zeta. intros (R1 & R2 & R3 & R4).
  rewrite (Rabs_minus_sym y_g), (Rabs_minus_sym H).
  repeat split; assumption.
Qed.

Lemma sinh_1_pos : 0 < sinh 1.
Proof. rewrite <- sinh_0. apply sinh_lt. lra. Qed.

(** C2 (as stated) fails.  When [root] reports success at the seed, the
    solver returns that point as the gondola height, although its slope jump
    misses the gondola's weight by more than 1: nothing in the code looks
    at the residuals of a successful result. *)
Lemma success_is_not_equilibrium :
  (exists sol,
     root_lm {| root_scalar := brentq_answers 1; root_lm := lm_accepts_seed |}
       (system 1 1 1 2 0 1 1) (0 / 2 * 1, 1 * 1, 0, 2) = Ret sol /\
     success sol = true /\
     solve_gondola_position
       {| root_scalar := brentq_answers 1; root_lm := lm_accepts_seed |}
       1 1 1 2 0 1 1 = Ret (Some (height_of (x sol))) /\
     forall tol, tol <= 1 ->
       ~ Spec.equilibrium_within tol 1 1 1 2 0 1 1 (x sol)).
Proof.
  exists {| x := (0 / 2 * 1, 1 * 1, 0, 2); success := true |}.
  split; [reflexivity |]. split; [reflexivity |].
  split.
  - apply (solve_converged _ _ _ _ _ _ _ _
             {| x := (0 / 2 * 1, 1 * 1, 0, 2); success := true |});
      [lra | reflexivity | reflexivity].
  - intros tol Htol (_ & _ & R3 & _).
    unfold Spec.catenary_slope, Spec.catenary_constant in R3.
    replace ((1 - 2) / (1 * 1 / (1 * 1))) with (Ropp 1) in R3 by (field; lra).
    replace ((1 - 0) / (1 * 1 / (1 * 1))) with 1 in R3 by (field; lra).
    apply Rabs_def2 in R3.
    assert (N : sinh (Ropp 1) < 0) by (rewrite <- sinh_0; apply sinh_lt; lra).
    assert (P := sinh_1_pos). lra.
Qed.

(** C2 (amended).  Inside the span, whatever [root] reports as a success is
    what the solver returns, in [realistic_model.py] and in
    [simulation_01_general.py]; its residuals are not checked.  A point of
    the unknowns meets the four equilibrium conditions within [tol] (left
    segment through the gondola, right segment through [(D, H)], slope jump
    equal to the gondola's weight, anchor tension equal to the
    counterweight's weight) exactly when the four residuals of the script's
    [system] at that point are below [tol] in absolute value. *)
Theorem success_is_returned_unchecked (sp : scipy)
    (tol g x_g M_cw D H m_g lam : R) (cfg1 : Simulation01.config) :
  (forall sol,
     0 < x_g < D ->
     root_lm sp (system g x_g M_cw D H m_g lam)
       (H / D * x_g, M_cw * g, 0, D) = Ret sol ->
     success sol = true ->
     solve_gondola_position sp g x_g M_cw D H m_g lam =
       Ret (Some (height_of (x sol)))) /\
  (forall sol,
     0 < x_g < Simulation01.D cfg1 ->
     root_lm sp (Simulation01.system cfg1 M_cw x_g)
       (Simulation01.Tower_H cfg1 / Simulation01.D cfg1 * x_g - 5,
        M_cw * Simulation01.g cfg1, 0, Simulation01.D cfg1) = Ret sol ->
     success sol = true ->
     Simulation01.solve_state sp cfg1 M_cw x_g = Ret (x sol)) /\
  (forall v,
     Spec.equilibrium_within tol g x_g M_cw D H m_g lam v <->
     within tol (system g x_g M_cw D H m_g lam v)) /\
  (forall v,
     Spec.equilibrium_within tol (Simulation01.g cfg1) x_g M_cw
       (Simulation01.D cfg1) (Simulation01.Tower_H cfg1)
       (Simulation01.m_g cfg1) (Simulation01.lam cfg1) v <->
     within tol (Simulation01.system cfg1 M_cw x_g v)).
Proof.
  split; [| split; [| split]].
  - intros sol Hx Hcall Hs. now apply solve_converged.
  - intros sol Hx Hcall Hs. unfold Simulation01.solve_state.
    rewrite simulation01_guess_interior by exact Hx.
    rewrite bind_Ret, Hcall, bind_Ret, Hs. reflexivity.
  - intros v. split; [apply equilibrium_residuals | apply within_equilibrium].
  - intros [[[y_g H_tension] c1] c2].
    rewrite simulation01_system_residuals.
    split; [apply equilibrium_residuals | apply within_equilibrium].
Qed.

Lemma success_is_returned_unchecked_witness :
  solve_gondola_position
    {| root_scalar := brentq_answers 1; root_lm := lm_answers hanging_rail |}
    1 1 1 2 (cosh 2 - 1) 0 1 = Ret (Some (cosh 1 - 1)).
Proof.
  destruct (success_is_returned_unchecked
              {| root_scalar := brentq_answers 1;
                 root_lm := lm_answers hanging_rail |}
              1e-6 1 1 1 2 (cosh 2 - 1) 0 1
              {| Simulation01.D := 2; Simulation01.Tower_H := cosh 2 - 1;
                 Simulation01.m_g := 0; Simulation01.lam := 1;
                 Simulation01.g := 1 |})
    as [Hreal _].
  apply (Hreal {| x := hanging_rail; success := true |}).
  - lra.
  - reflexivity.
  - reflexivity.
Defined.

(** ** Positivity of the horizontal tension *)

Lemma sagging_upwards_residuals :
  system 1 1 1 2 0 0 1 sagging_upwards =
  (cosh 1 - 1, cosh 2 - cosh 1, 0, -2).
Proof.
  unfold system, sagging_upwards.
  replace (-1 / (1 * 1)) with (-1) by lra.
  replace ((1 - 0) / -1) with (Ropp 1) by lra.
  replace ((2 - 0) / -1) with (Ropp 2) by lra.
  replace (- 0 / -1) with 0 by lra.
  replace ((0 - 0) / -1) with 0 by lra.
  rewrite !cosh_even, cosh_0, sinh_0.
  replace (1 + 0 ^ 2) with 1 by lra.
  rewrite sqrt_1.
  apply vars4_eq; lra.
Qed.

(** C4 (as stated) fails.  A point with tension -1, whose catenary constant
    is -1, is evaluated like any other: [system] returns the residuals of
    the inverted catenary, where [find_catenary_constant] answers its
    penalty [1e9]; and a result of [root] that reports success at that
    point is returned to the caller. *)
Lemma negative_tension_is_evaluated :
  tension_of sagging_upwards = -1 /\
  Spec.catenary_constant (tension_of sagging_upwards) 1 1 <= 0 /\
  system 1 1 1 2 0 0 1 sagging_upwards =
    (cosh 1 - 1, cosh 2 - cosh 1, 0, -2) /\
  find_catenary_constant slovak_exercise (-1) = 1e9 /\
  solve_gondola_position
    {| root_scalar := brentq_answers 1; root_lm := lm_answers sagging_upwards |}
    1 1 1 2 0 0 1 = Ret (Some 0).
Proof.
  split; [reflexivity |].
  split; [unfold Spec.catenary_constant, tension_of; simpl; lra |].
  split; [exact sagging_upwards_residuals |].
  split; [apply find_catenary_constant_penalty; lra |].
  rewrite (solve_converged _ _ _ _ _ _ _ _
             {| x := sagging_upwards; success := true |});
    [reflexivity | lra | reflexivity | reflexivity].
Qed.

(** C4 (amended).  With a positive counterweight, gravity and rope density,
    the seed has the positive tension [M_cw * g], and every result that is
    converged within a tolerance of at most [M_cw * g] has a positive
    tension and a positive catenary constant. *)
Theorem tension_positive_at_seed_and_convergence
    (tol g x_g M_cw D H m_g lam : R) :
  0 < M_cw -> 0 < g -> 0 < lam -> tol <= M_cw * g ->
  (0 < x_g < D ->
   exists y0,
     vars_guess g x_g M_cw D H = Ret (y0, M_cw * g, 0, D) /\
     0 < M_cw * g /\
     0 < Spec.catenary_constant (M_cw * g) lam g) /\
  (forall sol,
     converged_within tol (system g x_g M_cw D H m_g lam) sol ->
     0 < tension_of (x sol) /\
     0 < Spec.catenary_constant (tension_of (x sol)) lam g).
Proof.
  intros HM Hg Hlam Htol.
  assert (Hlg : 0 < lam * g) by now apply Rmult_lt_0_compat.
  split.
  - intros Hx. exists (H / D * x_g).
    split; [now apply vars_guess_interior |].
    assert (HT : 0 < M_cw * g) by now apply Rmult_lt_0_compat.
    split; [exact HT |].
    unfold Spec.catenary_constant. now apply Rdiv_lt_0_compat.
  - intros sol [_ Hw].
    assert (HT : 0 < tension_of (x sol))
      by (eapply within_tension_positive; eassumption).
    split; [exact HT |].
    unfold Spec.catenary_constant. now apply Rdiv_lt_0_compat.
Qed.

Lemma tension_positive_at_seed_and_convergence_witness :
  0 < tension_of hanging_rail /\
  0 < Spec.catenary_constant (tension_of hanging_rail) 1 1.
Proof.
  destruct (tension_positive_at_seed_and_convergence
              1e-6 1 1 1 2 (cosh 2 - 1) 0 1) as [_ Hconv]; try lra.
  exact (Hconv {| x := hanging_rail; success := true |}
           hanging_rail_converged).
Defined.

(** * Further properties of the scripts *)

(** ** Sample grids *)

Lemma linspace_unfold (start stop : R) (k : nat) :
  linspace start stop (S (S k)) =
  map (fun i => INR i * ((stop - start) / INR (S k)) + start) (seq 0 (S k))
  ++ [stop].
Proof. reflexivity. Qed.

Lemma linspace_nth_inner (start stop : R) (k i : nat) :
  (i <= k)%nat ->
  nth i (linspace start stop (S (S k))) 0 =
  INR i * ((stop - start) / INR (S k)) + start.
Proof.
  intros Hi. rewrite linspace_unfold.
  rewrite app_nth1 by (rewrite length_map, length_seq; lia).
  rewrite (nth_indep _ 0 (INR 0 * ((stop - start) / INR (S k)) + start))
    by (rewrite length_map, length_seq; lia).
  rewrite (map_nth (fun i => INR i * ((stop - start) / INR (S k)) + start)).
  rewrite seq_nth by lia. reflexivity.
Qed.

Lemma linspace_nth_last (start stop : R) (k : nat) :
  nth (S k) (linspace start stop (S (S k))) 0 = stop.
Proof.
  rewrite linspace_unfold.
  rewrite app_nth2 by (rewrite length_map, length_seq; lia).
  rewrite length_map, length_seq, Nat.sub_diag. reflexivity.
Qed.

(** The [i]-th sample as a fraction of the way from [start] to [stop]. *)
Lemma linspace_nth_fraction (start stop : R) (k i : nat) :
  (i <= S k)%nat ->
  nth i (linspace start stop (S (S k))) 0 =
  start + INR i / INR (S k) * (stop - start).
Proof.
  intros Hi.
  assert (Hk : INR (S k) <> 0) by (apply not_0_INR; lia).
  destruct (Nat.eq_dec i (S k)) as [-> | Hne].
  - rewrite linspace_nth_last. field. exact Hk.
  - rewrite linspace_nth_inner by lia. field. exact Hk.
Qed.

Lemma linspace_increasing (start stop : R) (k i j : nat) :
  start < stop -> (i < j)%nat -> (j <= S k)%nat ->
  nth i (linspace start stop (S (S k))) 0 <
  nth j (linspace start stop (S (S k))) 0.
Proof.
  intros Hlt Hij Hj.
  rewrite !linspace_nth_fraction by lia.
  assert (Hk : 0 < INR (S k)) by (apply lt_0_INR; lia).
  assert (Hfrac : INR i / INR (S k) < INR j / INR (S k)).
  { apply Rmult_lt_compat_r; [now apply Rinv_0_lt_compat |].
    now apply lt_INR. }
  nra.
Qed.

Lemma linspace_nth_bounds (start stop : R) (k i : nat) :
  start <= stop -> (i <= S k)%nat ->
  start <= nth i (linspace start stop (S (S k))) 0 <= stop.
Proof.
  intros Hle Hi. rewrite linspace_nth_fraction by exact Hi.
  assert (Hk : 0 < INR (S k)) by (apply lt_0_INR; lia).
  assert (H0 : 0 <= INR i / INR (S k)).
  { apply Rmult_le_pos; [apply pos_INR |].
    left. now apply Rinv_0_lt_compat. }
  assert (H1 : INR i / INR (S k) <= 1).
  { apply Rmult_le_reg_r with (INR (S k)); [exact Hk |].
    unfold Rdiv. rewrite Rmult_assoc, Rinv_l, Rmult_1_r, Rmult_1_l by lra.
    now apply le_INR. }
  nra.
Qed.

Lemma linspace_in_bounds (start stop : R) (num : nat) (u : R) :
  start <= stop -> In u (linspace start stop num) -> start <= u <= stop.
Proof.
  intros Hle Hin. destruct num as [| [| k]].
  - contradiction.
  - destruct Hin as [<- | []]. lra.
  - destruct (In_nth _ _ 0 Hin) as (i & Hi & <-).
    rewrite linspace_length in Hi.
    apply linspace_nth_bounds; [exact Hle | lia].
Qed.

(** X1.  With [D > 0] the 50 samples of [realistic_model.py] increase
    strictly from 0 to [D], and the 48 samples between the first and the
    last lie strictly inside the span: they are the ones handed to
    [root]. *)
Theorem x_vals_sorted_inside_span (sp : scipy) (cfg : config) (M : R) :
  0 < D cfg ->
  (forall i j, (i < j)%nat -> (j < 50)%nat ->
     nth i (x_vals cfg) 0 < nth j (x_vals cfg) 0) /\
  (forall i, (0 < i)%nat -> (i < 49)%nat ->
     0 < nth i (x_vals cfg) 0 < D cfg /\
     solve_gondola_position sp (g cfg) (nth i (x_vals cfg) 0) M (D cfg)
       (H cfg) (m_gondola cfg) (lam cfg) =
     try_except
       (sol <- root_lm sp
                 (system (g cfg) (nth i (x_vals cfg) 0) M (D cfg) (H cfg)
                    (m_gondola cfg) (lam cfg))
                 (H cfg / D cfg * nth i (x_vals cfg) 0, M * g cfg, 0, D cfg) ;;
        if success sol then Ret (Some (fst (fst (fst (x sol)))))
        else Ret None)
       (Ret None)).
Proof.
  intros HD.
  assert (Hsorted : forall i j, (i < j)%nat -> (j < 50)%nat ->
            nth i (x_vals cfg) 0 < nth j (x_vals cfg) 0).
  { intros i j Hij Hj. unfold x_vals.
    apply linspace_increasing; [exact HD | exact Hij | lia]. }
  split; [exact Hsorted |].
  intros i H0 H49.
  assert (Hin : 0 < nth i (x_vals cfg) 0 < D cfg).
  { split.
    - rewrite <- (x_vals_first cfg) at 1. apply Hsorted; lia.
    - assert (Hl : nth 49 (x_vals cfg) 0 = D cfg)
        by (unfold x_vals; apply linspace_nth_last).
      rewrite <- Hl. apply Hsorted; lia. }
  split; [exact Hin |]. now apply solve_interior.
Qed.

Lemma x_vals_sorted_inside_span_witness :
  0 < nth 1 (x_vals slovak_exercise) 0 < D slovak_exercise.
Proof.
  destruct (x_vals_sorted_inside_span scipy_failing slovak_exercise 2000)
    as [_ Hinner].
  - simpl. lra.
  - apply (Hinner 1%nat); lia.
Defined.

(** ** The static rail *)

Lemma cosh_ge_1 (t : R) : 1 <= cosh t.
Proof.
  unfold cosh.
  assert (P := exp_pos t).
  assert (I : exp t * exp (- t) = 1).
  { rewrite <- exp_plus. replace (t + - t) with 0 by lra. apply exp_0. }
  assert (Hsq : exp t * (exp t + exp (- t) - 2) =
                (exp t - 1) * (exp t - 1)) by nra.
  assert (Hnn : 0 <= exp t * (exp t + exp (- t) - 2))
    by (rewrite Hsq; apply (Rle_0_sqr (exp t - 1))).
  assert (0 <= exp t + exp (- t) - 2).
  { apply Rmult_le_reg_l with (exp t); [exact P |]. now rewrite Rmult_0_r. }
  lra.
Qed.

Lemma cosh_increasing (s t : R) : 0 <= s -> s < t -> cosh s < cosh t.
Proof.
  intros Hs Hst. unfold cosh.
  assert (Is : exp s * exp (- s) = 1).
  { rewrite <- exp_plus. replace (s + - s) with 0 by lra. apply exp_0. }
  assert (It : exp t * exp (- t) = 1).
  { rewrite <- exp_plus. replace (t + - t) with 0 by lra. apply exp_0. }
  assert (Ps : 1 <= exp s).
  { rewrite <- exp_0. destruct Hs as [Hs | <-];
      [left; now apply exp_increasing | right; reflexivity]. }
  assert (Pst : exp s < exp t) by now apply exp_increasing.
  assert (Qs := exp_pos (- s)). assert (Qt := exp_pos (- t)).
  assert (Hkey : exp (- s) - exp (- t) =
                 (exp t - exp s) * (exp (- s) * exp (- t))) by nra.
  assert (Hprod : exp (- s) * exp (- t) < 1).
  { assert (exp (- t) < exp (- s)) by (apply exp_increasing; lra).
    assert (exp (- s) <= 1).
    { rewrite <- exp_0. destruct Hs as [Hs | <-].
      - left. apply exp_increasing. lra.
      - right. f_equal. lra. }
    nra. }
  nra.
Qed.

Lemma static_height_origin (a : R) : static_height a 0 = 0.
Proof.
  unfold static_height. replace (0 / a) with 0 by (unfold Rdiv; ring).
  rewrite cosh_0. ring.
Qed.

Lemma static_height_nonneg (a u : R) : 0 <= a -> 0 <= static_height a u.
Proof.
  intros Ha. unfold static_height.
  assert (C := cosh_ge_1 (u / a)). nra.
Qed.

Lemma static_height_increasing (a u v : R) :
  0 < a -> 0 <= u -> u < v -> static_height a u < static_height a v.
Proof.
  intros Ha Hu Huv. unfold static_height.
  assert (Hdiv : u / a < v / a).
  { apply Rmult_lt_compat_r; [now apply Rinv_0_lt_compat | exact Huv]. }
  assert (H0 : 0 <= u / a).
  { apply Rmult_le_pos; [exact Hu | left; now apply Rinv_0_lt_compat]. }
  assert (C := cosh_increasing (u / a) (v / a) H0 Hdiv). nra.
Qed.

Lemma static_loop_nth (a : R) (cfg : config) (i : nat) :
  (i < 50)%nat ->
  nth i (static_loop a (x_vals cfg) []) 0 =
  static_height a (nth i (x_vals cfg) 0).
Proof.
  intros Hi. rewrite static_loop_spec, app_nil_l.
  apply nth_map_in_range. rewrite x_vals_length. exact Hi.
Qed.

(** X2.  When [a_static] is a positive root of [find_catenary_constant] and
    [D > 0], the 50 heights of [y_static] start at 0 at the lower station,
    increase strictly along the grid, and end at [H] at the upper
    station. *)
Theorem y_static_joins_the_stations (cfg : config) (a : R) :
  0 < a -> 0 < D cfg -> find_catenary_constant cfg a = 0 ->
  length (static_loop a (x_vals cfg) []) = 50%nat /\
  nth 0 (static_loop a (x_vals cfg) []) 0 = 0 /\
  nth 49 (static_loop a (x_vals cfg) []) 0 = H cfg /\
  (forall i j, (i < j)%nat -> (j < 50)%nat ->
     nth i (static_loop a (x_vals cfg) []) 0 <
     nth j (static_loop a (x_vals cfg) []) 0).
Proof.
  intros Ha HD Hroot.
  split.
  { rewrite static_loop_spec, app_nil_l, length_map.
    apply x_vals_length. }
  split.
  { rewrite static_loop_nth by lia. rewrite x_vals_first.
    apply static_height_origin. }
  split.
  { rewrite static_loop_nth by lia.
    replace (nth 49 (x_vals cfg) 0) with (D cfg)
      by (symmetry; unfold x_vals; apply linspace_nth_last).
    rewrite find_catenary_constant_pos in Hroot by exact Ha.
    unfold static_height. lra. }
  intros i j Hij Hj. rewrite !static_loop_nth by lia.
  apply static_height_increasing; [exact Ha | |].
  - destruct (Nat.eq_dec i 0) as [-> | Hi].
    + rewrite x_vals_first. lra.
    + left. rewrite <- (x_vals_first cfg) at 1. unfold x_vals.
      apply linspace_increasing; [exact HD | lia | lia].
  - unfold x_vals. apply linspace_increasing; [exact HD | exact Hij | lia].
Qed.

Lemma y_static_joins_the_stations_witness :
  nth 49 (static_loop 10000 (x_vals taut_rail) []) 0 = H taut_rail.
Proof.
  destruct (y_static_joins_the_stations taut_rail 10000) as (_ & _ & Hend & _).
  - lra.
  - simpl. lra.
  - exact taut_rail_root.
  - exact Hend.
Defined.

(** ** The rail flattens as its constant grows *)

Lemma scaled_gap_derivative (s c : R) :
  derivable_pt_lim (fun t => s * (cosh t - 1) - (cosh (s * t) - 1)) c
    (s * sinh c - s * sinh (s * c)).
Proof.
  assert (pr : derivable_pt
                 (fun t => s * (cosh t - 1) - (cosh (s * t) - 1)) c) by reg.
  apply (derive_pt_eq_1 _ _ _ pr). reg.
Qed.

Lemma cosh_scaled_pos (s u : R) :
  0 < s < 1 -> 0 < u -> cosh (s * u) - 1 < s * (cosh u - 1).
Proof.
  intros Hs Hu.
  destruct (MVT_cor2 (fun t => s * (cosh t - 1) - (cosh (s * t) - 1))
              (fun c => s * sinh c - s * sinh (s * c)) 0 u Hu)
    as (c & Hc & Hin).
  - intros c _. apply scaled_gap_derivative.
  - cbv beta in Hc. rewrite Rmult_0_r, cosh_0 in Hc.
    assert (Hsinh : sinh (s * c) < sinh c) by (apply sinh_lt; nra).
    assert (0 < (s * sinh c - s * sinh (s * c)) * (u - 0)).
    { apply Rmult_lt_0_compat; nra. }
    lra.
Qed.

Lemma cosh_scaled (s u : R) :
  0 < s < 1 -> u <> 0 -> cosh (s * u) - 1 < s * (cosh u - 1).
Proof.
  intros Hs Hu. destruct (Rlt_dec 0 u) as [Hpos | Hneg].
  - now apply cosh_scaled_pos.
  - rewrite <- (cosh_even u), <- (cosh_even (s * u)).
    replace (- (s * u)) with (s * - u) by ring.
    apply cosh_scaled_pos; lra.
Qed.

Lemma rail_flattens (a1 a2 d : R) :
  0 < a1 -> a1 < a2 -> d <> 0 ->
  a2 * (cosh (d / a2) - 1) < a1 * (cosh (d / a1) - 1).
Proof.
  intros H1 H12 Hd.
  assert (Hs : 0 < a1 / a2 < 1).
  { split.
    - apply Rdiv_lt_0_compat; lra.
    - apply Rmult_lt_reg_r with a2; [lra |].
      unfold Rdiv. rewrite Rmult_assoc, Rinv_l by lra. lra. }
  assert (Hu : d / a1 <> 0).
  { intros E. apply Hd.
    replace d with (d / a1 * a1) by (field; lra). rewrite E. ring. }
  assert (Hk := cosh_scaled (a1 / a2) (d / a1) Hs Hu).
  replace (a1 / a2 * (d / a1)) with (d / a2) in Hk by (field; lra).
  apply Rmult_lt_compat_l with (r := a2) in Hk; [| lra].
  replace (a2 * (a1 / a2 * (cosh (d / a1) - 1)))
    with (a1 * (cosh (d / a1) - 1)) in Hk by (field; lra).
  exact Hk.
Qed.

(** X3.  With [D <> 0] the objective [find_catenary_constant] decreases
    strictly over the positive constants and is 1e9 elsewhere, so it has at
    most one root: the constant [brentq] looks for is unique. *)
Theorem find_catenary_constant_single_root (cfg : config) (a1 a2 : R) :
  D cfg <> 0 ->
  (0 < a1 -> a1 < a2 ->
   find_catenary_constant cfg a2 < find_catenary_constant cfg a1) /\
  (find_catenary_constant cfg a1 = 0 ->
   find_catenary_constant cfg a2 = 0 -> a1 = a2).
Proof.
  intros HD.
  assert (Hdec : forall u v, 0 < u -> u < v ->
            find_catenary_constant cfg v < find_catenary_constant cfg u).
  { intros u v Hu Huv. rewrite !find_catenary_constant_pos by lra.
    assert (Hf := rail_flattens u v (D cfg) Hu Huv HD). lra. }
  split; [apply Hdec |].
  intros R1 R2.
  assert (P1 : 0 < a1).
  { destruct (Rle_dec a1 0) as [Hle |]; [| lra].
    rewrite find_catenary_constant_penalty in R1 by exact Hle. lra. }
  assert (P2 : 0 < a2).
  { destruct (Rle_dec a2 0) as [Hle |]; [| lra].
    rewrite find_catenary_constant_penalty in R2 by exact Hle. lra. }
  destruct (Rtotal_order a1 a2) as [Hlt | [Heq | Hgt]].
  - assert (Hc := Hdec a1 a2 P1 Hlt). lra.
  - exact Heq.
  - assert (Hc := Hdec a2 a1 P2 Hgt). lra.
Qed.

Lemma find_catenary_constant_single_root_witness :
  find_catenary_constant taut_rail 20000 < find_catenary_constant taut_rail 10000.
Proof.
  destruct (find_catenary_constant_single_root taut_rail 10000 20000)
    as [Hdec _].
  - simpl. lra.
  - apply Hdec; lra.
Defined.

(** ** The script as a whole *)

(** X4.  [realistic_model.py] fails exactly when the static solve fails,
    with the same exception: once [root_scalar] has returned, the sweep
    cannot abort the script. *)
Theorem main_fails_only_in_static_solve (sp : scipy) (cfg : config) :
  (forall e, main sp cfg = Raise e <-> sol_a sp cfg = Raise e) /\
  (forall s, sol_a sp cfg = Ret s ->
     exists r, main sp cfg = Ret r /\
       length (res_y_static r) = 50%nat /\
       length (res_y_trajectory r) = 50%nat).
Proof.
  split.
  - intros e. destruct (sol_a sp cfg) as [s | e'] eqn:E.
    + rewrite (main_returns sp cfg s E). split; discriminate.
    + unfold main. rewrite (a_static_raises sp cfg e' E). simpl.
      split; intros Heq; injection Heq as ->; reflexivity.
  - intros s E. eexists. split; [exact (main_returns sp cfg s E) |].
    cbn [res_y_static res_y_trajectory].
    rewrite static_loop_spec, app_nil_l, !length_map.
    split; apply x_vals_length.
Qed.

Lemma main_fails_only_in_static_solve_witness :
  exists r, main scipy_failing slovak_exercise = Ret r /\
    length (res_y_static r) = 50%nat /\
    length (res_y_trajectory r) = 50%nat.
Proof.
  destruct (main_fails_only_in_static_solve scipy_failing slovak_exercise)
    as [_ Hret].
  apply (Hret {| root := 400; converged := true |}). reflexivity.
Defined.

(** ** The deflection annotation *)

Lemma nth_error_in_range (l : list R) (i : nat) :
  (i < length l)%nat -> nth_error l i = Some (nth i l 0).
Proof.
  intros Hi. now apply nth_error_nth'.
Qed.

Lemma x_vals_inner (cfg : config) (i : nat) :
  0 < D cfg -> (0 < i)%nat -> (i < 49)%nat ->
  0 < nth i (x_vals cfg) 0 < D cfg.
Proof.
  intros HD H0 H49. split.
  - rewrite <- (x_vals_first cfg) at 1. unfold x_vals.
    apply linspace_increasing; [exact HD | lia | lia].
  - assert (Hl : nth 49 (x_vals cfg) 0 = D cfg)
      by (unfold x_vals; apply linspace_nth_last).
    rewrite <- Hl. unfold x_vals.
    apply linspace_increasing; [exact HD | lia | lia].
Qed.

(** X5.  The annotated deflection is read at sample 25 and never fails; when
    [root] does not converge there, the annotation shows a deflection of
    exactly 0, because the fallback is the static rail it is compared
    with. *)
Theorem deflection_is_zero_on_fallback (sp : scipy) (cfg : config)
    (s : RootResults) :
  sol_a sp cfg = Ret s -> 0 < D cfg ->
  exists r,
    main sp cfg = Ret r /\
    RealisticModelAnnotation.mid_idx (res_x_vals r) = 25%nat /\
    RealisticModelAnnotation.sag_diff r =
      Some (nth 25 (res_y_trajectory r) 0 - nth 25 (res_y_static r) 0) /\
    (not_converged
       (root_lm sp
          (system (g cfg) (nth 25 (x_vals cfg) 0)
             (M_counterweight (root s) cfg) (D cfg) (H cfg)
             (m_gondola cfg) (lam cfg))
          (H cfg / D cfg * nth 25 (x_vals cfg) 0,
           M_counterweight (root s) cfg * g cfg, 0, D cfg)) ->
     RealisticModelAnnotation.sag_diff r = Some 0).
Proof.
  intros E HD. eexists. split; [exact (main_returns sp cfg s E) |].
  assert (Hmid : RealisticModelAnnotation.mid_idx (x_vals cfg) = 25%nat).
  { unfold RealisticModelAnnotation.mid_idx. rewrite x_vals_length.
    reflexivity. }
  split; [exact Hmid |].
  unfold RealisticModelAnnotation.sag_diff.
  cbn [res_x_vals res_y_static res_y_trajectory]. rewrite Hmid.
  rewrite static_loop_spec, app_nil_l.
  rewrite !nth_error_in_range
    by (rewrite length_map, x_vals_length; lia).
  split; [reflexivity |].
  intros Hnc.
  rewrite !(nth_map_in_range _ _ 0) by (rewrite x_vals_length; lia).
  rewrite sample_height_fallback.
  - f_equal. lra.
  - apply x_vals_inner; [exact HD | lia | lia].
  - exact Hnc.
Qed.

Lemma deflection_is_zero_on_fallback_witness :
  exists r,
    main scipy_failing slovak_exercise = Ret r /\
    RealisticModelAnnotation.sag_diff r = Some 0.
Proof.
  destruct (deflection_is_zero_on_fallback scipy_failing slovak_exercise
              {| root := 400; converged := true |})
    as (r & Hmain & _ & _ & Hzero).
  - reflexivity.
  - simpl. lra.
  - exists r. split; [exact Hmain |].
    apply Hzero. left. eexists. split; reflexivity.
Defined.

(** ** [solve_state] of simulation_01_general.py *)

Lemma pydiv_zero (n : R) : pydiv n 0 = Raise ZeroDivisionError.
Proof.
  unfold pydiv. destruct (Req_dec_T 0 0) as [_ | Hne];
    [reflexivity | now contradiction Hne].
Qed.

(** X6.  [solve_state] has no boundary guard and no handler: with [D = 0]
    it raises [ZeroDivisionError]; an exception of [root] reaches the
    caller; and when [root] reports failure it returns the seed itself,
    [(Tower_H/D * x_g - 5, M_cw * g, 0, D)], as if it were a solution. *)
Theorem solve_state_returns_seed_on_failure (sp : scipy)
    (cfg : Simulation01.config) (M_cw x_g : R) :
  (Simulation01.D cfg = 0 ->
   Simulation01.solve_state sp cfg M_cw x_g = Raise ZeroDivisionError) /\
  (Simulation01.D cfg <> 0 ->
   let seed := (Simulation01.Tower_H cfg / Simulation01.D cfg * x_g - 5,
                M_cw * Simulation01.g cfg, 0, Simulation01.D cfg) in
   (forall e,
      root_lm sp (Simulation01.system cfg M_cw x_g) seed = Raise e ->
      Simulation01.solve_state sp cfg M_cw x_g = Raise e) /\
   (forall sol,
      root_lm sp (Simulation01.system cfg M_cw x_g) seed = Ret sol ->
      success sol = false ->
      Simulation01.solve_state sp cfg M_cw x_g = Ret seed) /\
   (forall sol,
      root_lm sp (Simulation01.system cfg M_cw x_g) seed = Ret sol ->
      success sol = true ->
      Simulation01.solve_state sp cfg M_cw x_g = Ret (x sol))).
Proof.
  split.
  - intros HD. unfold Simulation01.solve_state, Simulation01.guess.
    rewrite HD, pydiv_zero. reflexivity.
  - intros HD seed. unfold Simulation01.solve_state, Simulation01.guess.
    rewrite pydiv_nonzero by exact HD. rewrite !bind_Ret. fold seed.
    repeat split.
    + intros e E. rewrite E. reflexivity.
    + intros sol E Hs. rewrite E, bind_Ret, Hs. reflexivity.
    + intros sol E Hs. rewrite E, bind_Ret, Hs. reflexivity.
Qed.

Lemma solve_state_returns_seed_on_failure_witness :
  Simulation01.solve_state scipy_failing
    {| Simulation01.D := 200; Simulation01.Tower_H := 50;
       Simulation01.m_g := 500; Simulation01.lam := 5;
       Simulation01.g := 9.81 |} 2000 100 =
  Ret (50 / 200 * 100 - 5, 2000 * 9.81, 0, 200).
Proof.
  destruct (solve_state_returns_seed_on_failure scipy_failing
              {| Simulation01.D := 200; Simulation01.Tower_H := 50;
                 Simulation01.m_g := 500; Simulation01.lam := 5;
                 Simulation01.g := 9.81 |} 2000 100)
    as [_ Hnz].
  destruct Hnz as (_ & Hfail & _).
  - simpl. lra.
  - apply (Hfail {| x := (50 / 200 * 100 - 5, 2000 * 9.81, 0, 200);
                    success := false |}); reflexivity.
Defined.

(** ** The animation frames of simulation_01_general.py *)

Lemma div_of_nonzero (python : bool) (n d : R) :
  d <> 0 -> Simulation01Frames.div_of python n d = Ret (n / d).
Proof.
  intros Hd. unfold Simulation01Frames.div_of.
  destruct python; [now apply pydiv_nonzero | reflexivity].
Qed.

(** The frame drawn for a state whose catenary constant is not zero. *)
Lemma rope_returns (cfg : Simulation01.config) (from_seed : bool)
    (x_g y_g H c1 c2 : R) :
  Simulation01.lam cfg * Simulation01.g cfg <> 0 -> H <> 0 ->
  let a := H / (Simulation01.lam cfg * Simulation01.g cfg) in
  Simulation01Frames.rope cfg from_seed x_g (y_g, H, c1, c2) =
  Ret {| Simulation01Frames.frame_x_g := x_g;
         Simulation01Frames.frame_y_g := y_g;
         Simulation01Frames.rope_x :=
           linspace 0 x_g 20 ++ linspace x_g (Simulation01.D cfg) 20;
         Simulation01Frames.rope_y :=
           map (Spec.catenary_height a c1) (linspace 0 x_g 20) ++
           map (Spec.right_segment a c2 x_g y_g)
             (linspace x_g (Simulation01.D cfg) 20) |}.
Proof.
  intros Hlg HH a. unfold Simulation01Frames.rope.
  rewrite div_of_nonzero by exact Hlg. rewrite bind_Ret. fold a.
  assert (Ha : a <> 0).
  { unfold a, Rdiv. apply Rmult_integral_contrapositive_currified;
      [exact HH | now apply Rinv_neq_0_compat]. }
  rewrite div_of_nonzero by exact Ha. rewrite bind_Ret. reflexivity.
Qed.

(** X7.  A frame's rope, whenever it is drawn, has 40 points, leaves the
    origin, has the gondola [(x_g, y_g)] as the first point of its right
    segment and ends above [x = D]; if the state satisfies the residuals of
    [system] within [tol], the left segment ends within [tol] of the gondola
    and the right segment within [tol] of the upper station. *)
Theorem rope_joins_stations_and_gondola (cfg : Simulation01.config)
    (from_seed : bool) (M_cw x_g y_g H c1 c2 tol : R) :
  Simulation01.lam cfg * Simulation01.g cfg <> 0 -> H <> 0 ->
  exists f,
    Simulation01Frames.rope cfg from_seed x_g (y_g, H, c1, c2) = Ret f /\
    length (Simulation01Frames.rope_x f) = 40%nat /\
    length (Simulation01Frames.rope_y f) = 40%nat /\
    nth 0 (Simulation01Frames.rope_x f) 0 = 0 /\
    nth 0 (Simulation01Frames.rope_y f) 0 = 0 /\
    nth 19 (Simulation01Frames.rope_x f) 0 = x_g /\
    nth 20 (Simulation01Frames.rope_x f) 0 = x_g /\
    nth 20 (Simulation01Frames.rope_y f) 0 = y_g /\
    nth 39 (Simulation01Frames.rope_x f) 0 = Simulation01.D cfg /\
    (within tol (Simulation01.system cfg M_cw x_g (y_g, H, c1, c2)) ->
     Rabs (nth 19 (Simulation01Frames.rope_y f) 0 - y_g) < tol /\
     Rabs (nth 39 (Simulation01Frames.rope_y f) 0 - Simulation01.Tower_H cfg)
       < tol).
Proof.
  intros Hlg HH. eexists. split; [now apply rope_returns |].
  cbn [Simulation01Frames.rope_x Simulation01Frames.rope_y].
  set (a := H / (Simulation01.lam cfg * Simulation01.g cfg)).
  set (xl := linspace 0 x_g 20).
  set (xr := linspace x_g (Simulation01.D cfg) 20).
  assert (Ll : length xl = 20%nat) by apply linspace_length.
  assert (Lr : length xr = 20%nat) by apply linspace_length.
  assert (Ll' : length (map (Spec.catenary_height a c1) xl) = 20%nat)
    by now rewrite length_map.
  assert (X0 : nth 0 xl 0 = 0) by apply linspace_first.
  assert (X19 : nth 19 xl 0 = x_g) by apply (linspace_nth_last 0 x_g 18).
  assert (R0 : nth 0 xr 0 = x_g) by apply linspace_first.
  assert (R19 : nth 19 xr 0 = Simulation01.D cfg)
    by apply (linspace_nth_last x_g (Simulation01.D cfg) 18).
  assert (YL : forall i, (i < 20)%nat ->
            nth i (map (Spec.catenary_height a c1) xl ++
                   map (Spec.right_segment a c2 x_g y_g) xr) 0 =
            Spec.catenary_height a c1 (nth i xl 0)).
  { intros i Hi. rewrite app_nth1 by lia.
    apply nth_map_in_range. lia. }
  assert (YR : forall i j, j = (20 + i)%nat -> (i < 20)%nat ->
            nth j (map (Spec.catenary_height a c1) xl ++
                   map (Spec.right_segment a c2 x_g y_g) xr) 0 =
            Spec.right_segment a c2 x_g y_g (nth i xr 0)).
  { intros i j -> Hi. rewrite app_nth2 by lia.
    rewrite Ll'. replace (20 + i - 20)%nat with i by lia.
    apply nth_map_in_range. lia. }
  split; [rewrite length_app; lia |].
  split; [rewrite length_app, !length_map; lia |].
  split; [rewrite app_nth1 by lia; exact X0 |].
  split.
  { rewrite (YL 0%nat) by lia. rewrite X0.
    unfold Spec.catenary_height. replace (0 - c1) with (- c1) by ring. ring. }
  split; [rewrite app_nth1 by lia; exact X19 |].
  split.
  { rewrite app_nth2 by lia. rewrite Ll. exact R0. }
  split.
  { rewrite (YR 0%nat 20%nat) by lia. rewrite R0.
    unfold Spec.right_segment. ring. }
  split.
  { rewrite app_nth2 by lia. rewrite Ll. exact R19. }
  intros Hw.
  rewrite simulation01_system_residuals in Hw.
  apply within_equilibrium in Hw.
  destruct Hw as (E1 & E2 & _ & _).
  rewrite (YL 19%nat) by lia. rewrite (YR 19%nat 39%nat) by lia.
  rewrite X19, R19. split; [exact E1 | exact E2].
Qed.

Lemma rope_joins_stations_and_gondola_witness :
  exists f,
    Simulation01Frames.rope
      {| Simulation01.D := 2; Simulation01.Tower_H := cosh 2 - 1;
         Simulation01.m_g := 0; Simulation01.lam := 1;
         Simulation01.g := 1 |} false 1 (cosh 1 - 1, 1, 0, 0) = Ret f /\
    nth 20 (Simulation01Frames.rope_y f) 0 = cosh 1 - 1.
Proof.
  destruct (rope_joins_stations_and_gondola
              {| Simulation01.D := 2; Simulation01.Tower_H := cosh 2 - 1;
                 Simulation01.m_g := 0; Simulation01.lam := 1;
                 Simulation01.g := 1 |} false 1 1 (cosh 1 - 1) 1 0 0 1e-6)
    as (f & Hf & _ & _ & _ & _ & _ & _ & Hy & _).
  - simpl. lra.
  - lra.
  - exists f. split; [exact Hf | exact Hy].
Defined.

Section FrameLoop.

Variables (sp : scipy) (cfg : Simulation01.config) (M_cw : R).

Hypothesis span_nonzero : Simulation01.D cfg <> 0.
Hypothesis weight_nonzero : Simulation01.lam cfg * Simulation01.g cfg <> 0.
Hypothesis counterweight_nonzero : M_cw <> 0.
Hypothesis root_returns :
  forall F x0, exists sol, root_lm sp F x0 = Ret sol.

Lemma rope_numpy_returns (u : R) (state : vars4) :
  exists f,
    Simulation01Frames.rope cfg false u state = Ret f /\
    Simulation01Frames.frame_x_g f = u /\
    Simulation01Frames.frame_y_g f = height_of state.
Proof.
  destruct state as [[[y_g H] c1] c2].
  unfold Simulation01Frames.rope, Simulation01Frames.div_of.
  rewrite !bind_Ret. eexists. split; [reflexivity |]. split; reflexivity.
Qed.

Lemma frame_of_shows (u : R) :
  exists f, Simulation01Frames.frame_of sp cfg M_cw u = Ret f /\ shows sp cfg M_cw u f.
Proof.
  unfold Simulation01Frames.frame_of, shows, Simulation01.solve_state.
  unfold Simulation01.guess. rewrite pydiv_nonzero by exact span_nonzero.
  rewrite !bind_Ret.
  set (seed := (Simulation01.Tower_H cfg / Simulation01.D cfg * u - 5,
                M_cw * Simulation01.g cfg, 0, Simulation01.D cfg)).
  destruct (root_returns (Simulation01.system cfg M_cw u) seed) as [sol E].
  rewrite E, !bind_Ret. destruct (success sol); cbn [negb].
  - destruct (rope_numpy_returns u (x sol)) as (f & Hf & Hx & Hy).
    exists f. split; [exact Hf |]. exists (x sol). now repeat split.
  - assert (Hg : Simulation01.g cfg <> 0).
    { intros E0. apply weight_nonzero. rewrite E0. ring. }
    assert (HT : M_cw * Simulation01.g cfg <> 0)
      by now apply Rmult_integral_contrapositive_currified.
    unfold seed. rewrite rope_returns by assumption.
    eexists. split; [reflexivity |]. exists seed. now repeat split.
Qed.

Lemma frame_loop_shows (xs : list R) (acc : list Simulation01Frames.frame) :
  exists fs,
    Simulation01Frames.frame_loop sp cfg M_cw xs acc = Ret (acc ++ fs) /\
    Forall2 (shows sp cfg M_cw) xs fs.
Proof.
  revert acc. induction xs as [| u rest IH]; intros acc; simpl.
  - exists []. split; [now rewrite app_nil_r | constructor].
  - destruct (frame_of_shows u) as (f & Hf & Hs). rewrite Hf, bind_Ret.
    destruct (IH (acc ++ [f])) as (fs & Hloop & Hall).
    exists (f :: fs). split.
    + rewrite Hloop, <- app_assoc. reflexivity.
    + now constructor.
Qed.

Lemma shows_traj_x (xs : list R) (fs : list Simulation01Frames.frame) :
  Forall2 (shows sp cfg M_cw) xs fs -> Simulation01Frames.traj_x fs = xs.
Proof.
  induction 1 as [| u f xs fs (st & _ & Hx & _) _ IH]; simpl.
  - reflexivity.
  - now rewrite Hx, IH.
Qed.

End FrameLoop.

(** X8.  With [D], [lam * g] and [M_cw] different from zero and a [root]
    that does not raise, the frame loop returns one frame per sample of
    [x_gondola_vals], in order, each showing the height [solve_state]
    answers at its position; with [D >= 4] every position lies in
    [[2, D - 2]], clear of both stations. *)
Theorem frame_loop_covers_the_grid (sp : scipy) (cfg : Simulation01.config)
    (M_cw : R) (FRAMES : nat) :
  Simulation01.D cfg <> 0 ->
  Simulation01.lam cfg * Simulation01.g cfg <> 0 ->
  M_cw <> 0 ->
  (forall F x0, exists sol, root_lm sp F x0 = Ret sol) ->
  exists frame_data,
    Simulation01Frames.frame_loop sp cfg M_cw
      (Simulation01Frames.x_gondola_vals cfg FRAMES) [] = Ret frame_data /\
    length frame_data = FRAMES /\
    Simulation01Frames.traj_x frame_data =
      Simulation01Frames.x_gondola_vals cfg FRAMES /\
    Forall2 (shows sp cfg M_cw)
      (Simulation01Frames.x_gondola_vals cfg FRAMES) frame_data /\
    (4 <= Simulation01.D cfg ->
     forall u, In u (Simulation01Frames.traj_x frame_data) ->
       2 <= u <= Simulation01.D cfg - 2).
Proof.
  intros HD Hlg HM Hroot.
  destruct (frame_loop_shows sp cfg M_cw HD Hlg HM Hroot
              (Simulation01Frames.x_gondola_vals cfg FRAMES) [])
    as (fs & Hloop & Hall).
  exists fs. rewrite app_nil_l in Hloop.
  assert (Hx := shows_traj_x sp cfg M_cw _ _ Hall).
  split; [exact Hloop |].
  split.
  { rewrite <- (Forall2_length Hall).
    unfold Simulation01Frames.x_gondola_vals. apply linspace_length. }
  split; [exact Hx |]. split; [exact Hall |].
  intros H4 u Hin. rewrite Hx in Hin.
  unfold Simulation01Frames.x_gondola_vals in Hin.
  apply linspace_in_bounds in Hin; [exact Hin | lra].
Qed.

Lemma frame_loop_covers_the_grid_witness :
  exists frame_data,
    Simulation01Frames.frame_loop scipy_failing
      {| Simulation01.D := 200; Simulation01.Tower_H := 50;
         Simulation01.m_g := 500; Simulation01.lam := 5;
         Simulation01.g := 9.81 |} 2000
      (Simulation01Frames.x_gondola_vals
         {| Simulation01.D := 200; Simulation01.Tower_H := 50;
            Simulation01.m_g := 500; Simulation01.lam := 5;
            Simulation01.g := 9.81 |} 100) [] = Ret frame_data /\
    length frame_data = 100%nat.
Proof.
  destruct (frame_loop_covers_the_grid scipy_failing
              {| Simulation01.D := 200; Simulation01.Tower_H := 50;
                 Simulation01.m_g := 500; Simulation01.lam := 5;
                 Simulation01.g := 9.81 |} 2000 100)
    as (fd & Hloop & Hlen & _).
  - simpl. lra.
  - simpl. lra.
  - lra.
  - intros F x0. eexists. reflexivity.
  - exists fd. split; [exact Hloop | exact Hlen].
Defined.

(** ** The load-aware counterweight of simulation_02 *)

Lemma exp_inverse (t : R) : exp t * exp (- t) = 1.
Proof.
  rewrite <- exp_plus. replace (t + - t) with 0 by lra. apply exp_0.
Qed.

Lemma cosh_sq_minus_sinh_sq (t : R) : cosh t * cosh t - sinh t * sinh t = 1.
Proof.
  unfold cosh, sinh. assert (I := exp_inverse t). nra.
Qed.

Lemma cosh_pos (t : R) : 0 < cosh t.
Proof. assert (C := cosh_ge_1 t). lra. Qed.

Lemma sqrt_one_plus_sinh_sq (t : R) : sqrt (1 + sinh t ^ 2) = cosh t.
Proof.
  apply sqrt_lem_1.
  - assert (Hs := Rle_0_sqr (sinh t)). unfold Rsqr in Hs. nra.
  - left. apply cosh_pos.
  - assert (I := cosh_sq_minus_sinh_sq t). nra.
Qed.

Lemma arcsinh_pos (q : R) : 0 < q -> 0 < arcsinh q.
Proof.
  intros Hq. destruct (Rlt_dec 0 (arcsinh q)) as [Hp | Hn]; [exact Hp |].
  exfalso.
  assert (Hs : sinh (arcsinh q) <= sinh 0).
  { destruct (Req_dec_T (arcsinh q) 0) as [-> | Hne]; [lra |].
    left. apply sinh_lt. lra. }
  rewrite sinh_arcsinh, sinh_0 in Hs. lra.
Qed.

Lemma arcsinh_0 : arcsinh 0 = 0.
Proof. rewrite <- sinh_0 at 1. apply arcsinh_sinh. Qed.

(** A start angle lifts the far end of the rope. *)
Lemma tilted_rail_is_higher (u alpha : R) :
  0 < u -> 0 < alpha -> cosh u - 1 < cosh (u + alpha) - cosh alpha.
Proof.
  intros Hu Ha. unfold cosh.
  replace (- (u + alpha)) with (- u + - alpha) by ring.
  rewrite !exp_plus.
  assert (Iu := exp_inverse u). assert (Ia := exp_inverse alpha).
  assert (Pu : 1 < exp u) by (rewrite <- exp_0; now apply exp_increasing).
  assert (Pa : 1 < exp alpha) by (rewrite <- exp_0; now apply exp_increasing).
  assert (Qu : exp (- u) < 1)
    by (rewrite <- exp_0; apply exp_increasing; lra).
  assert (Qa : exp (- alpha) < 1)
    by (rewrite <- exp_0; apply exp_increasing; lra).
  assert (0 < (exp u - 1) * (exp alpha - 1)) by (apply Rmult_lt_0_compat; lra).
  assert (0 < (1 - exp (- u)) * (1 - exp (- alpha)))
    by (apply Rmult_lt_0_compat; lra).
  nra.
Qed.

Lemma simulation02_find_a_pos (cfg : Simulation02.config) (a : R) :
  0 < a -> Simulation02.lam cfg <> 0 ->
  Simulation02.find_a cfg a =
  Ret (a * (cosh (Simulation02.D cfg / a
                  + arcsinh (Simulation02.m_g cfg / (a * Simulation02.lam cfg)))
            - cosh (arcsinh (Simulation02.m_g cfg / (a * Simulation02.lam cfg))))
       - Simulation02.H_tower cfg).
Proof.
  intros Ha Hlam. unfold Simulation02.find_a.
  destruct (Rle_dec a 0); [lra |].
  rewrite pydiv_nonzero; [reflexivity |].
  apply Rmult_integral_contrapositive_currified; [lra | exact Hlam].
Qed.

(** X9.  The load-aware objective [find_a] of simulation_02 answers the
    penalty 1e9 for [a <= 0] and raises [ZeroDivisionError] for a rope
    without density; with a massless gondola it is the unloaded objective of
    [realistic_model.py]; with a positive load it lies strictly above the
    unloaded objective, so a root of it is a larger catenary constant, and a
    heavier counterweight, than the unloaded root. *)
Theorem load_aware_objective (cfg : Simulation02.config) (rcfg : config)
    (a : R) :
  Simulation02.D cfg = D rcfg -> Simulation02.H_tower cfg = H rcfg ->
  (a <= 0 -> Simulation02.find_a cfg a = Ret 1e9) /\
  (0 < a -> Simulation02.lam cfg = 0 ->
   Simulation02.find_a cfg a = Raise ZeroDivisionError) /\
  (0 < a -> Simulation02.lam cfg <> 0 -> Simulation02.m_g cfg = 0 ->
   Simulation02.find_a cfg a = Ret (find_catenary_constant rcfg a)) /\
  (0 < a -> 0 < Simulation02.lam cfg -> 0 < Simulation02.m_g cfg ->
   0 < D rcfg ->
   exists v,
     Simulation02.find_a cfg a = Ret v /\
     find_catenary_constant rcfg a < v /\
     (v = 0 -> forall a_n,
        find_catenary_constant rcfg a_n = 0 ->
        a_n < a /\ a_n * Simulation02.lam cfg < a * Simulation02.lam cfg)).
Proof.
  intros HD HH. split; [| split; [| split]].
  - intros Ha. unfold Simulation02.find_a.
    destruct (Rle_dec a 0); [reflexivity | contradiction].
  - intros Ha Hlam. unfold Simulation02.find_a.
    destruct (Rle_dec a 0); [lra |].
    rewrite Hlam, Rmult_0_r, pydiv_zero. reflexivity.
  - intros Ha Hlam Hm. rewrite simulation02_find_a_pos by assumption.
    rewrite Hm. replace (0 / (a * Simulation02.lam cfg)) with 0
      by (unfold Rdiv; ring).
    rewrite arcsinh_0, Rplus_0_r, cosh_0.
    rewrite find_catenary_constant_pos by exact Ha.
    now rewrite HD, HH.
  - intros Ha Hlam Hm HDpos. eexists.
    split; [apply simulation02_find_a_pos; lra |].
    set (alpha := arcsinh (Simulation02.m_g cfg / (a * Simulation02.lam cfg))).
    assert (Halpha : 0 < alpha).
    { apply arcsinh_pos. apply Rdiv_lt_0_compat; [exact Hm |].
      now apply Rmult_lt_0_compat. }
    assert (Hu : 0 < D rcfg / a) by now apply Rdiv_lt_0_compat.
    assert (Hlift := tilted_rail_is_higher (D rcfg / a) alpha Hu Halpha).
    rewrite find_catenary_constant_pos by exact Ha. rewrite HD, HH.
    assert (Hgap : a * (cosh (D rcfg / a) - 1) - H rcfg <
                   a * (cosh (D rcfg / a + alpha) - cosh alpha) - H rcfg)
      by nra.
    split; [exact Hgap |].
    intros Hv a_n Hn.
    assert (Pn : 0 < a_n).
    { destruct (Rle_dec a_n 0) as [Hle |]; [| lra].
      rewrite find_catenary_constant_penalty in Hn by exact Hle. lra. }
    rewrite find_catenary_constant_pos in Hn by exact Pn.
    assert (Hlt : a_n < a).
    { destruct (Rlt_dec a_n a) as [Hlt | Hge]; [exact Hlt |]. exfalso.
      destruct (Req_dec_T a a_n) as [Heq | Hne].
      - rewrite <- Heq in Hn. lra.
      - assert (Hf := rail_flattens a a_n (D rcfg)). lra. }
    split; [exact Hlt | nra].
Qed.

Lemma load_aware_objective_witness :
  Simulation02.find_a
    {| Simulation02.D := 200; Simulation02.H_tower := 50;
       Simulation02.m_g := 0; Simulation02.lam := 5;
       Simulation02.g := 9.81 |} 400 =
  Ret (find_catenary_constant slovak_exercise 400).
Proof.
  destruct (load_aware_objective
              {| Simulation02.D := 200; Simulation02.H_tower := 50;
                 Simulation02.m_g := 0; Simulation02.lam := 5;
                 Simulation02.g := 9.81 |} slovak_exercise 400)
    as (_ & _ & Hzero & _); try reflexivity.
  apply Hzero; simpl; lra.
Defined.

(** ** The unloaded rope of simulation_02 *)

(** X10.  With a massless gondola, a root [(H_u, c1_u)] of the unloaded
    system [sys] is a root of the loaded [system] at every gondola position:
    the gondola sits on the unloaded rope, both segments share the shift
    [c1_u], and the tension is [H_u]. *)
Theorem unloaded_root_solves_loaded_system (cfg : Simulation02.config)
    (M_cw H_u c1_u : R) :
  Simulation02.m_g cfg = 0 ->
  Simulation02.sys cfg M_cw (H_u, c1_u) = (0, 0) ->
  forall x_g,
    let a_u := H_u / (Simulation02.lam cfg * Simulation02.g cfg) in
    Simulation02.system cfg M_cw x_g
      (Spec.catenary_height a_u c1_u x_g, H_u, c1_u, c1_u) = (0, 0, 0, 0).
Proof.
  intros Hm Hsys x_g a_u.
  unfold Simulation02.sys in Hsys. fold a_u in Hsys.
  injection Hsys as HyD HT0.
  unfold Simulation02.system, Spec.catenary_height. fold a_u.
  rewrite sqrt_one_plus_sinh_sq, Hm.
  apply vars4_eq; lra.
Qed.

Lemma unloaded_root_solves_loaded_system_witness :
  Simulation02.system
    {| Simulation02.D := 2; Simulation02.H_tower := cosh 2 - 1;
       Simulation02.m_g := 0; Simulation02.lam := 1; Simulation02.g := 1 |}
    1 1 (Spec.catenary_height (1 / (1 * 1)) 0 1, 1, 0, 0) = (0, 0, 0, 0).
Proof.
  apply (unloaded_root_solves_loaded_system
           {| Simulation02.D := 2; Simulation02.H_tower := cosh 2 - 1;
              Simulation02.m_g := 0; Simulation02.lam := 1;
              Simulation02.g := 1 |} 1 1 0).
  - reflexivity.
  - unfold Simulation02.sys. cbn [Simulation02.D Simulation02.H_tower
      Simulation02.lam Simulation02.g].
    replace (1 / (1 * 1)) with 1 by lra.
    replace ((2 - 0) / 1) with 2 by lra.
    replace (- 0 / 1) with 0 by lra.
    rewrite cosh_0. f_equal; lra.
Defined.

(** ** The plotted curve of graph_trajectory_counterweight.py *)

(** X11.  Written in terms of the counterweight mass [M_cw = a * lam], the
    200 plotted heights are the static rail of constant [a]: they start at
    0, and end at [H_tower] when [a] is a positive root of [find_a]; a rope
    without density makes the script raise [ZeroDivisionError]. *)
Theorem plotted_curve_is_the_static_rail (cfg : GraphTrajectory.config)
    (a : R) :
  (GraphTrajectory.lam cfg = 0 ->
   GraphTrajectoryCurve.y_vals cfg (GraphTrajectory.M_cw a cfg) =
   Raise ZeroDivisionError) /\
  (GraphTrajectory.lam cfg <> 0 -> a <> 0 ->
   exists ys,
     GraphTrajectoryCurve.y_vals cfg (GraphTrajectory.M_cw a cfg) = Ret ys /\
     ys = map (static_height a) (GraphTrajectoryCurve.x_vals cfg) /\
     length ys = 200%nat /\
     nth 0 ys 0 = 0 /\
     (0 < a -> GraphTrajectory.find_a cfg a = 0 ->
      nth 199 ys 0 = GraphTrajectory.H_tower cfg)).
Proof.
  split.
  - intros Hlam. unfold GraphTrajectoryCurve.y_vals.
    rewrite Hlam, pydiv_zero. reflexivity.
  - intros Hlam Ha. unfold GraphTrajectoryCurve.y_vals.
    rewrite pydiv_nonzero by exact Hlam. rewrite bind_Ret.
    eexists. split; [reflexivity |].
    assert (Hmap :
      map (fun u =>
             GraphTrajectory.M_cw a cfg / GraphTrajectory.lam cfg *
             (cosh (u * GraphTrajectory.lam cfg / GraphTrajectory.M_cw a cfg)
              - 1)) (GraphTrajectoryCurve.x_vals cfg) =
      map (static_height a) (GraphTrajectoryCurve.x_vals cfg)).
    { apply map_ext. intros u. unfold static_height, GraphTrajectory.M_cw.
      replace (a * GraphTrajectory.lam cfg / GraphTrajectory.lam cfg)
        with a by (field; exact Hlam).
      replace (u * GraphTrajectory.lam cfg / (a * GraphTrajectory.lam cfg))
        with (u / a) by (field; split; assumption).
      reflexivity. }
    rewrite Hmap.
    assert (Hlen : length (GraphTrajectoryCurve.x_vals cfg) = 200%nat)
      by apply linspace_length.
    split; [reflexivity |].
    split; [now rewrite length_map |].
    split.
    + rewrite (nth_map_in_range _ _ 0) by lia.
      unfold GraphTrajectoryCurve.x_vals. rewrite linspace_first.
      apply static_height_origin.
    + intros Hpos Hroot.
      rewrite (nth_map_in_range _ _ 0) by lia.
      unfold GraphTrajectoryCurve.x_vals.
      rewrite (linspace_nth_last 0 (GraphTrajectory.D cfg) 198).
      unfold GraphTrajectory.find_a in Hroot.
      destruct (Rle_dec a 0); [lra |].
      unfold static_height. lra.
Qed.

Lemma plotted_curve_is_the_static_rail_witness :
  exists ys,
    GraphTrajectoryCurve.y_vals
      {| GraphTrajectory.D := 200; GraphTrajectory.H_tower := 50;
         GraphTrajectory.lam := 5 |} (400 * 5) = Ret ys /\
    nth 0 ys 0 = 0.
Proof.
  destruct (plotted_curve_is_the_static_rail
              {| GraphTrajectory.D := 200; GraphTrajectory.H_tower := 50;
                 GraphTrajectory.lam := 5 |} 400) as [_ Hnz].
  destruct Hnz as (ys & Hy & _ & _ & H0 & _).
  - simpl. lra.
  - lra.
  - exists ys. split; [exact Hy | exact H0].
Defined.

(** ** forces_analysis.py *)

Lemma sin_atan_sinh (t : R) : sin (atan (sinh t)) = tanh t.
Proof.
  rewrite sin_atan. unfold tanh, Rsqr.
  replace (1 + sinh t * sinh t) with (1 + sinh t ^ 2) by ring.
  now rewrite sqrt_one_plus_sinh_sq.
Qed.

Lemma tanh_bounded (t : R) : Rabs (tanh t) < 1.
Proof.
  unfold tanh. assert (C := cosh_pos t).
  assert (Hlo : - cosh t < sinh t).
  { unfold cosh, sinh. assert (P := exp_pos t). lra. }
  assert (Hhi : sinh t < cosh t).
  { unfold cosh, sinh. assert (P := exp_pos (- t)). lra. }
  apply Rabs_def1.
  - apply Rmult_lt_reg_r with (cosh t); [exact C |].
    unfold Rdiv. rewrite Rmult_assoc, Rinv_l by lra. lra.
  - apply Rmult_lt_reg_r with (cosh t); [exact C |].
    unfold Rdiv. rewrite Rmult_assoc, Rinv_l by lra. lra.
Qed.

Lemma forces_loop_spec (cfg : ForcesAnalysis.config) (a : R) (xs : list R)
    (acc : ForcesAnalysis.forces) :
  ForcesAnalysis.loop cfg a xs acc =
  {| ForcesAnalysis.traction_forces :=
       ForcesAnalysis.traction_forces acc ++
       map (fun u => ForcesAnalysis.m_gondola cfg * ForcesAnalysis.g cfg
                     * sin (atan (sinh (u / a)))) xs;
     ForcesAnalysis.cable_tensions :=
       ForcesAnalysis.cable_tensions acc ++
       map (fun u => ForcesAnalysis.M_counter cfg * ForcesAnalysis.g cfg
                     * cosh (u / a)) xs;
     ForcesAnalysis.angles_deg :=
       ForcesAnalysis.angles_deg acc ++
       map (fun u => ForcesAnalysis.degrees (atan (sinh (u / a)))) xs |}.
Proof.
  revert acc. induction xs as [| u rest IH]; intros acc; simpl.
  - rewrite !app_nil_r. now destruct acc.
  - rewrite IH. cbn [ForcesAnalysis.traction_forces
      ForcesAnalysis.cable_tensions ForcesAnalysis.angles_deg].
    now rewrite <- !app_assoc.
Qed.

Lemma degrees_bounded (theta : R) :
  - PI / 2 < theta < PI / 2 -> -90 < ForcesAnalysis.degrees theta < 90.
Proof.
  intros [Hlo Hhi]. unfold ForcesAnalysis.degrees.
  assert (P := PI_RGT_0).
  assert (Hk : 0 < 180 / PI) by (apply Rdiv_lt_0_compat; lra).
  assert (E : PI / 2 * (180 / PI) = 90) by (field; lra).
  split.
  - replace (-90) with (- PI / 2 * (180 / PI)) by (field; lra).
    now apply Rmult_lt_compat_r.
  - rewrite <- E. now apply Rmult_lt_compat_r.
Qed.

(** X12.  With a rope density and a counterweight mass other than zero,
    so that the catenary constant [a] is not zero, [forces_analysis.py]
    fills three lists of 100 entries.  At every sample the traction is
    [m * g * tanh(x/a)], never larger in size than the gondola's weight; the
    cable tension is [M * g * cosh(x/a)], never below the counterweight's
    weight; the slope angle is strictly between -90 and 90 degrees.  At the
    lower station the traction and the angle are 0 and the tension is the
    counterweight's weight.  With [lam = 0] the script raises
    [ZeroDivisionError]. *)
Theorem forces_along_the_rail (cfg : ForcesAnalysis.config) :
  (ForcesAnalysis.lam cfg = 0 ->
   ForcesAnalysis.main cfg = Raise ZeroDivisionError) /\
  (ForcesAnalysis.lam cfg <> 0 -> ForcesAnalysis.M_counter cfg <> 0 ->
   let a := ForcesAnalysis.M_counter cfg / ForcesAnalysis.lam cfg in
   let W := ForcesAnalysis.m_gondola cfg * ForcesAnalysis.g cfg in
   let T := ForcesAnalysis.M_counter cfg * ForcesAnalysis.g cfg in
   exists fs,
     ForcesAnalysis.main cfg = Ret fs /\
     length (ForcesAnalysis.traction_forces fs) = 100%nat /\
     length (ForcesAnalysis.cable_tensions fs) = 100%nat /\
     length (ForcesAnalysis.angles_deg fs) = 100%nat /\
     (forall i, (i < 100)%nat ->
        let u := nth i (ForcesAnalysis.x_vals cfg) 0 in
        nth i (ForcesAnalysis.traction_forces fs) 0 = W * tanh (u / a) /\
        Rabs (nth i (ForcesAnalysis.traction_forces fs) 0) <= Rabs W /\
        nth i (ForcesAnalysis.cable_tensions fs) 0 = T * cosh (u / a) /\
        (0 <= T -> T <= nth i (ForcesAnalysis.cable_tensions fs) 0) /\
        -90 < nth i (ForcesAnalysis.angles_deg fs) 0 < 90) /\
     nth 0 (ForcesAnalysis.traction_forces fs) 0 = 0 /\
     nth 0 (ForcesAnalysis.cable_tensions fs) 0 = T /\
     nth 0 (ForcesAnalysis.angles_deg fs) 0 = 0).
Proof.
  split.
  - intros Hlam. unfold ForcesAnalysis.main, ForcesAnalysis.a.
    rewrite Hlam, pydiv_zero. reflexivity.
  - intros Hlam HM a W T. unfold ForcesAnalysis.main, ForcesAnalysis.a.
    rewrite pydiv_nonzero by exact Hlam. rewrite bind_Ret. fold a.
    rewrite forces_loop_spec. cbn [ForcesAnalysis.traction_forces
      ForcesAnalysis.cable_tensions ForcesAnalysis.angles_deg].
    rewrite !app_nil_l. fold W T.
    eexists. split; [reflexivity |].
    cbn [ForcesAnalysis.traction_forces ForcesAnalysis.cable_tensions
      ForcesAnalysis.angles_deg].
    assert (Hlen : length (ForcesAnalysis.x_vals cfg) = 100%nat)
      by apply linspace_length.
    assert (H0 : nth 0 (ForcesAnalysis.x_vals cfg) 0 = 0)
      by apply linspace_first.
    rewrite !length_map.
    split; [exact Hlen |]. split; [exact Hlen |]. split; [exact Hlen |].
    split.
    + intros i Hi. set (u := nth i (ForcesAnalysis.x_vals cfg) 0).
      rewrite !(nth_map_in_range _ _ 0) by lia. fold u.
      rewrite sin_atan_sinh.
      split; [reflexivity |].
      split.
      { rewrite Rabs_mult. rewrite <- (Rmult_1_r (Rabs W)) at 2.
        apply Rmult_le_compat_l; [apply Rabs_pos |].
        left. apply tanh_bounded. }
      split; [reflexivity |].
      split.
      { intros HT. assert (C := cosh_ge_1 (u / a)). nra. }
      apply degrees_bounded, atan_bound.
    + rewrite !(nth_map_in_range _ _ 0) by lia. rewrite H0.
      replace (0 / a) with 0 by (unfold Rdiv; ring).
      rewrite sinh_0, atan_0, sin_0, cosh_0.
      unfold ForcesAnalysis.degrees.
      split; [ring |]. split; ring.
Qed.

Lemma forces_along_the_rail_witness :
  exists fs,
    ForcesAnalysis.main
      {| ForcesAnalysis.D := 200; ForcesAnalysis.H := 50;
         ForcesAnalysis.m_gondola := 500; ForcesAnalysis.M_counter := 5000;
         ForcesAnalysis.lam := 5; ForcesAnalysis.g := 9.81 |} = Ret fs /\
    nth 0 (ForcesAnalysis.cable_tensions fs) 0 = 5000 * 9.81.
Proof.
  destruct (forces_along_the_rail
              {| ForcesAnalysis.D := 200; ForcesAnalysis.H := 50;
                 ForcesAnalysis.m_gondola := 500;
                 ForcesAnalysis.M_counter := 5000;
                 ForcesAnalysis.lam := 5; ForcesAnalysis.g := 9.81 |})
    as [_ Hnz].
  destruct Hnz as (fs & Hmain & _ & _ & _ & _ & _ & HT & _).
  - simpl. lra.
  - simpl. lra.
  - exists fs. split; [exact Hmain | exact HT].
Defined.

(** ** sensitivity_analysis.py *)

Lemma static_height_positive (a u : R) :
  0 < a -> 0 < u -> 0 < static_height a u.
Proof.
  intros Ha Hu. rewrite <- (static_height_origin a).
  apply static_height_increasing; lra.
Qed.

Lemma static_height_flattens (a1 a2 u : R) :
  0 < a1 -> a1 < a2 -> u <> 0 -> static_height a2 u < static_height a1 u.
Proof.
  intros H1 H12 Hu. unfold static_height. now apply rail_flattens.
Qed.

Lemma sensitivity_y_vals (cfg : SensitivityAnalysis.config) (M : R) :
  SensitivityAnalysis.lam cfg <> 0 ->
  SensitivityAnalysis.y_vals cfg M =
  Ret (map (static_height (M / SensitivityAnalysis.lam cfg))
         (SensitivityAnalysis.x_vals cfg)).
Proof.
  intros Hlam. unfold SensitivityAnalysis.y_vals.
  rewrite pydiv_nonzero by exact Hlam. reflexivity.
Qed.

Lemma sensitivity_curves (cfg : SensitivityAnalysis.config) (ms : list R) :
  SensitivityAnalysis.lam cfg <> 0 ->
  SensitivityAnalysis.curves cfg ms =
  Ret (map (fun M => map (static_height (M / SensitivityAnalysis.lam cfg))
                       (SensitivityAnalysis.x_vals cfg)) ms).
Proof.
  intros Hlam. induction ms as [| M rest IH]; simpl.
  - reflexivity.
  - rewrite sensitivity_y_vals by exact Hlam. rewrite bind_Ret, IH.
    reflexivity.
Qed.

(** X13.  In [sensitivity_analysis.py], with positive span and rope
    density, every curve starts at height 0 and is positive afterwards, and
    of two positive counterweight masses the heavier gives the strictly
    lower curve at every sample after the first; the loop over [masses]
    draws five curves. *)
Theorem heavier_counterweight_lowers_the_curve
    (cfg : SensitivityAnalysis.config) (M1 M2 : R) :
  0 < SensitivityAnalysis.lam cfg -> 0 < SensitivityAnalysis.D cfg ->
  0 < M1 -> M1 < M2 ->
  exists ys1 ys2 cs,
    SensitivityAnalysis.y_vals cfg M1 = Ret ys1 /\
    SensitivityAnalysis.y_vals cfg M2 = Ret ys2 /\
    SensitivityAnalysis.curves cfg (SensitivityAnalysis.masses cfg) = Ret cs /\
    length cs = 5%nat /\
    length ys1 = 100%nat /\ length ys2 = 100%nat /\
    nth 0 ys1 0 = 0 /\ nth 0 ys2 0 = 0 /\
    (forall i, (0 < i)%nat -> (i < 100)%nat ->
       0 < nth i ys2 0 < nth i ys1 0).
Proof.
  intros Hlam HD HM1 HM12.
  assert (Hl : SensitivityAnalysis.lam cfg <> 0) by lra.
  do 3 eexists.
  split; [now apply sensitivity_y_vals |].
  split; [now apply sensitivity_y_vals |].
  split; [now apply sensitivity_curves |].
  split; [reflexivity |].
  assert (Hlen : length (SensitivityAnalysis.x_vals cfg) = 100%nat)
    by apply linspace_length.
  assert (H0 : nth 0 (SensitivityAnalysis.x_vals cfg) 0 = 0)
    by apply linspace_first.
  rewrite !length_map.
  split; [exact Hlen |]. split; [exact Hlen |].
  split.
  { rewrite (nth_map_in_range _ _ 0) by lia. rewrite H0.
    apply static_height_origin. }
  split.
  { rewrite (nth_map_in_range _ _ 0) by lia. rewrite H0.
    apply static_height_origin. }
  intros i Hi0 Hi.
  rewrite !(nth_map_in_range _ _ 0) by lia.
  assert (Hu : 0 < nth i (SensitivityAnalysis.x_vals cfg) 0).
  { rewrite <- H0 at 1. unfold SensitivityAnalysis.x_vals.
    apply linspace_increasing; [exact HD | exact Hi0 | lia]. }
  assert (Ha1 : 0 < M1 / SensitivityAnalysis.lam cfg)
    by now apply Rdiv_lt_0_compat.
  assert (Ha12 : M1 / SensitivityAnalysis.lam cfg <
                 M2 / SensitivityAnalysis.lam cfg).
  { apply Rmult_lt_compat_r; [now apply Rinv_0_lt_compat | exact HM12]. }
  split.
  - apply static_height_positive; lra.
  - apply static_height_flattens; lra.
Qed.

Lemma heavier_counterweight_lowers_the_curve_witness :
  exists ys1 ys2,
    SensitivityAnalysis.y_vals
      {| SensitivityAnalysis.D := 200; SensitivityAnalysis.H := 50;
         SensitivityAnalysis.lam := 5; SensitivityAnalysis.M_base := 6000 |}
      4800 = Ret ys1 /\
    SensitivityAnalysis.y_vals
      {| SensitivityAnalysis.D := 200; SensitivityAnalysis.H := 50;
         SensitivityAnalysis.lam := 5; SensitivityAnalysis.M_base := 6000 |}
      6000 = Ret ys2 /\
    nth 99 ys2 0 < nth 99 ys1 0.
Proof.
  destruct (heavier_counterweight_lowers_the_curve
              {| SensitivityAnalysis.D := 200; SensitivityAnalysis.H := 50;
                 SensitivityAnalysis.lam := 5;
                 SensitivityAnalysis.M_base := 6000 |} 4800 6000)
    as (ys1 & ys2 & cs & H1 & H2 & _ & _ & _ & _ & _ & _ & Hlow).
  - simpl. lra.
  - simpl. lra.
  - lra.
  - lra.
  - exists ys1, ys2. split; [exact H1 |]. split; [exact H2 |].
    apply (Hlow 99%nat); lia.
Defined.

(** ** sensitivity_analysis2.py *)

Lemma rail_slope_derivative (a u : R) :
  a <> 0 ->
  derivable_pt_lim (fun t => a * (cosh (t / a) - 1)) u (sinh (u / a)).
Proof.
  intros Ha.
  assert (pr : derivable_pt (fun t => a * (cosh (t / a) - 1)) u) by reg.
  apply (derive_pt_eq_1 _ _ _ pr). reg.
  unfold Rdiv. field. exact Ha.
Qed.

Lemma rail_mass_derivative (lam u0 m : R) :
  lam <> 0 -> m <> 0 ->
  derivable_pt_lim (fun t => t / lam * (cosh (u0 * lam / t) - 1)) m
    (1 / lam * (cosh (u0 * lam / m) - 1
                - u0 * lam / m * sinh (u0 * lam / m))).
Proof.
  intros Hlam Hm.
  assert (pr : derivable_pt
                 (fun t => t / lam * (cosh (u0 * lam / t) - 1)) m)
    by (reg; exact Hm).
  apply (derive_pt_eq_1 _ _ _ pr). reg.
  unfold comp, Rsqr, Rdiv. field. split; assumption.
Qed.

Lemma mass_term_derivative (c : R) :
  derivable_pt_lim (fun t => cosh t - 1 - t * sinh t) c (- (c * cosh c)).
Proof.
  assert (pr : derivable_pt (fun t => cosh t - 1 - t * sinh t) c) by reg.
  apply (derive_pt_eq_1 _ _ _ pr). reg.
Qed.

Lemma mass_term_nonpos_right (u : R) :
  0 <= u -> cosh u - 1 - u * sinh u <= 0.
Proof.
  intros [Hu | <-].
  - destruct (MVT_cor2 (fun t => cosh t - 1 - t * sinh t)
                (fun c => - (c * cosh c)) 0 u Hu) as (c & Hc & Hin).
    + intros c _. apply mass_term_derivative.
    + cbv beta in Hc. rewrite cosh_0, sinh_0 in Hc.
      assert (C := cosh_pos c).
      assert (0 < c * cosh c * (u - 0)).
      { apply Rmult_lt_0_compat; [apply Rmult_lt_0_compat |]; lra. }
      lra.
  - rewrite cosh_0, sinh_0. lra.
Qed.

Lemma sinh_odd (t : R) : sinh (- t) = - sinh t.
Proof.
  unfold sinh. rewrite Ropp_involutive. lra.
Qed.

Lemma mass_term_nonpos (u : R) : cosh u - 1 - u * sinh u <= 0.
Proof.
  destruct (Rle_dec 0 u) as [Hu | Hu].
  - now apply mass_term_nonpos_right.
  - assert (H := mass_term_nonpos_right (- u)).
    rewrite cosh_even, sinh_odd in H.
    replace (- u * - sinh u) with (u * sinh u) in H by ring.
    apply H. lra.
Qed.

(** X14.  The two sensitivity curves of [sensitivity_analysis2.py] are
    derivatives of the rail [y = a * (cosh(x/a) - 1)] with [a = M / lam]:
    [dy_dx] is its derivative in [x], and [dy_dM] its derivative in the
    counterweight mass.  With a positive density [dy_dM] is never positive:
    added counterweight raises the rope nowhere. *)
Theorem sensitivities_are_derivatives (cfg : SensitivityAnalysis2.config)
    (u0 : R) :
  SensitivityAnalysis2.lam cfg <> 0 -> SensitivityAnalysis2.M cfg <> 0 ->
  let a := SensitivityAnalysis2.M cfg / SensitivityAnalysis2.lam cfg in
  SensitivityAnalysis2.a cfg = Ret a /\
  derivable_pt_lim (static_height a) u0 (SensitivityAnalysis2.dy_dx a u0) /\
  exists v,
    SensitivityAnalysis2.dy_dM cfg u0 = Ret v /\
    derivable_pt_lim
      (fun m => static_height (m / SensitivityAnalysis2.lam cfg) u0)
      (SensitivityAnalysis2.M cfg) v /\
    (0 < SensitivityAnalysis2.lam cfg -> v <= 0).
Proof.
  intros Hlam HM a.
  assert (Ha : a <> 0).
  { unfold a, Rdiv. apply Rmult_integral_contrapositive_currified;
      [exact HM | now apply Rinv_neq_0_compat]. }
  split; [unfold SensitivityAnalysis2.a; now apply pydiv_nonzero |].
  split; [now apply rail_slope_derivative |].
  unfold SensitivityAnalysis2.dy_dM.
  rewrite pydiv_nonzero by exact Hlam. rewrite bind_Ret.
  eexists. split; [reflexivity |].
  split.
  - assert (Hd := rail_mass_derivative (SensitivityAnalysis2.lam cfg) u0
                    (SensitivityAnalysis2.M cfg) Hlam HM).
    assert (Hext : forall m,
              m <> 0 ->
              static_height (m / SensitivityAnalysis2.lam cfg) u0 =
              m / SensitivityAnalysis2.lam cfg *
              (cosh (u0 * SensitivityAnalysis2.lam cfg / m) - 1)).
    { intros m Hm. unfold static_height. do 3 f_equal. field.
      split; assumption. }
    intros eps Heps. destruct (Hd eps Heps) as [delta Hdelta].
    assert (Hpos : 0 < Rmin delta (Rabs (SensitivityAnalysis2.M cfg))).
    { apply Rmin_pos; [apply delta | now apply Rabs_pos_lt]. }
    exists (mkposreal _ Hpos). intros h Hh Hsmall. simpl in Hsmall.
    assert (Hh1 : Rabs h < delta)
      by (eapply Rlt_le_trans; [exact Hsmall | apply Rmin_l]).
    assert (Hh2 : Rabs h < Rabs (SensitivityAnalysis2.M cfg))
      by (eapply Rlt_le_trans; [exact Hsmall | apply Rmin_r]).
    assert (Hne : SensitivityAnalysis2.M cfg + h <> 0).
    { intros E0.
      assert (h = - SensitivityAnalysis2.M cfg) by lra. subst h.
      rewrite Rabs_Ropp in Hh2. lra. }
    rewrite (Hext _ Hne), (Hext _ HM). now apply Hdelta.
  - intros Hpos.
    assert (Hterm := mass_term_nonpos
              (u0 * SensitivityAnalysis2.lam cfg / SensitivityAnalysis2.M cfg)).
    assert (Hq : 0 < 1 / SensitivityAnalysis2.lam cfg)
      by (apply Rdiv_lt_0_compat; lra).
    nra.
Qed.

Lemma sensitivities_are_derivatives_witness :
  SensitivityAnalysis2.a
    {| SensitivityAnalysis2.D := 200; SensitivityAnalysis2.lam := 5;
       SensitivityAnalysis2.M := 5000; SensitivityAnalysis2.g := 9.81 |} =
  Ret (5000 / 5).
Proof.
  destruct (sensitivities_are_derivatives
              {| SensitivityAnalysis2.D := 200; SensitivityAnalysis2.lam := 5;
                 SensitivityAnalysis2.M := 5000;
                 SensitivityAnalysis2.g := 9.81 |} 100) as [Ha _].
  - simpl. lra.
  - simpl. lra.
  - exact Ha.
Defined.

(** X15.  The slack samples [L_vals] of [sensitivity_analysis2.py] stay
    between [D + 0.1] and [D + 5], so the tight-cable singularity [L = D] is
    never evaluated; with [D > 0] the sag sensitivity [dh_dL] is positive on
    them and decreases strictly as the slack grows. *)
Theorem slack_sensitivity_clear_of_singularity
    (cfg : SensitivityAnalysis2.config) :
  0 < SensitivityAnalysis2.D cfg ->
  length (SensitivityAnalysis2.L_vals cfg) = 100%nat /\
  (forall L, In L (SensitivityAnalysis2.L_vals cfg) ->
     SensitivityAnalysis2.D cfg + 0.1 <= L <= SensitivityAnalysis2.D cfg + 5 /\
     0 < SensitivityAnalysis2.dh_dL cfg L) /\
  (forall L1 L2,
     SensitivityAnalysis2.D cfg < L1 -> L1 < L2 ->
     SensitivityAnalysis2.dh_dL cfg L2 < SensitivityAnalysis2.dh_dL cfg L1).
Proof.
  intros HD.
  assert (Hpos : forall L, SensitivityAnalysis2.D cfg < L ->
            0 < 3 * SensitivityAnalysis2.D cfg /
                (8 * (L - SensitivityAnalysis2.D cfg))).
  { intros L HL. apply Rdiv_lt_0_compat; lra. }
  split; [apply linspace_length |].
  split.
  - intros L Hin. unfold SensitivityAnalysis2.L_vals in Hin.
    apply linspace_in_bounds in Hin; [| lra].
    split; [lra |].
    unfold SensitivityAnalysis2.dh_dL.
    assert (Hs : 0 < sqrt (3 * SensitivityAnalysis2.D cfg /
                           (8 * (L - SensitivityAnalysis2.D cfg))))
      by (apply sqrt_lt_R0, Hpos; lra).
    lra.
  - intros L1 L2 H1 H12. unfold SensitivityAnalysis2.dh_dL.
    assert (Hlt : 3 * SensitivityAnalysis2.D cfg /
                  (8 * (L2 - SensitivityAnalysis2.D cfg)) <
                  3 * SensitivityAnalysis2.D cfg /
                  (8 * (L1 - SensitivityAnalysis2.D cfg))).
    { apply Rmult_lt_compat_l; [lra |].
      apply Rinv_lt_contravar; [| lra].
      apply Rmult_lt_0_compat; lra. }
    assert (Hs : sqrt (3 * SensitivityAnalysis2.D cfg /
                       (8 * (L2 - SensitivityAnalysis2.D cfg))) <
                 sqrt (3 * SensitivityAnalysis2.D cfg /
                       (8 * (L1 - SensitivityAnalysis2.D cfg)))).
    { apply sqrt_lt_1_alt. split; [left; apply Hpos; lra | exact Hlt]. }
    lra.
Qed.

Lemma slack_sensitivity_clear_of_singularity_witness :
  length (SensitivityAnalysis2.L_vals
            {| SensitivityAnalysis2.D := 200; SensitivityAnalysis2.lam := 5;
               SensitivityAnalysis2.M := 5000;
               SensitivityAnalysis2.g := 9.81 |}) = 100%nat.
Proof.
  destruct (slack_sensitivity_clear_of_singularity
              {| SensitivityAnalysis2.D := 200; SensitivityAnalysis2.lam := 5;
                 SensitivityAnalysis2.M := 5000;
                 SensitivityAnalysis2.g := 9.81 |}) as [Hlen _].
  - simpl. lra.
  - exact Hlen.
Defined.

(** ** elipse_trajetory.py *)

Lemma ellipse_loop_spec (cfg : EllipseTrajectory.config) (xs : list R)
    (acc : list (option R)) :
  EllipseTrajectory.loop cfg xs acc =
  acc ++ map (EllipseTrajectory.y_at cfg) xs.
Proof.
  revert acc. induction xs as [| u rest IH]; intros acc; simpl.
  - now rewrite app_nil_r.
  - rewrite IH, <- app_assoc. reflexivity.
Qed.

Lemma rope_longer_than_chord (cfg : EllipseTrajectory.config) :
  EllipseTrajectory.R_ cfg < EllipseTrajectory.L cfg ->
  0 < EllipseTrajectory.L cfg /\
  EllipseTrajectory.D cfg ^ 2 + EllipseTrajectory.H cfg ^ 2 <
  EllipseTrajectory.L cfg ^ 2.
Proof.
  unfold EllipseTrajectory.R_. intros Hlt.
  set (q := EllipseTrajectory.D cfg ^ 2 + EllipseTrajectory.H cfg ^ 2) in *.
  assert (Hq : 0 <= q).
  { unfold q. assert (A1 := pow2_ge_0 (EllipseTrajectory.D cfg)).
    assert (A2 := pow2_ge_0 (EllipseTrajectory.H cfg)). lra. }
  assert (Hs := sqrt_pos q). assert (Hss := sqrt_sqrt q Hq).
  split; [lra | nra].
Qed.

Lemma quadratic_root (a b c : R) :
  a <> 0 -> 0 <= b ^ 2 - 4 * a * c ->
  let y := (- b - sqrt (b ^ 2 - 4 * a * c)) / (2 * a) in
  a * y ^ 2 + b * y + c = 0.
Proof.
  intros Ha Hd y.
  assert (Hss := sqrt_sqrt _ Hd).
  set (s := sqrt (b ^ 2 - 4 * a * c)) in *.
  assert (Hy : 2 * a * y = - b - s) by (unfold y; field; exact Ha).
  assert (Hk : a * (a * y ^ 2 + b * y + c) = 0) by nra.
  apply Rmult_integral in Hk. destruct Hk; [contradiction | assumption].
Qed.

Lemma ellipse_discriminant_factored (cfg : EllipseTrajectory.config) (u : R) :
  EllipseTrajectory.discriminant cfg u =
  16 * EllipseTrajectory.L cfg ^ 2 *
  (EllipseTrajectory.K cfg u ^ 2
   - 4 * u ^ 2 * (EllipseTrajectory.L cfg ^ 2 - EllipseTrajectory.H cfg ^ 2)).
Proof.
  unfold EllipseTrajectory.discriminant, EllipseTrajectory.B,
    EllipseTrajectory.C, EllipseTrajectory.A. ring.
Qed.

Lemma ellipse_discriminant_nonneg (cfg : EllipseTrajectory.config) (u : R) :
  EllipseTrajectory.R_ cfg < EllipseTrajectory.L cfg ->
  0 <= u <= EllipseTrajectory.D cfg ->
  0 <= EllipseTrajectory.discriminant cfg u.
Proof.
  intros Hguard Hu. destruct (rope_longer_than_chord cfg Hguard) as [HL Hsq].
  rewrite ellipse_discriminant_factored.
  set (w := EllipseTrajectory.L cfg ^ 2 - EllipseTrajectory.H cfg ^ 2).
  assert (Hw : 0 <= w) by (unfold w; nra).
  assert (Ht := sqrt_pos w). assert (Htt := sqrt_sqrt w Hw).
  set (t := sqrt w) in *.
  assert (HtD : EllipseTrajectory.D cfg < t).
  { destruct (Rlt_dec (EllipseTrajectory.D cfg) t) as [Hlt | Hge];
      [exact Hlt |]. exfalso. unfold w in Htt. nra. }
  assert (HK : EllipseTrajectory.K cfg u =
               t * t - EllipseTrajectory.D cfg ^ 2
               + 2 * u * EllipseTrajectory.D cfg).
  { rewrite Htt. unfold EllipseTrajectory.K, w. ring. }
  assert (Hminus : 0 <= EllipseTrajectory.K cfg u - 2 * u * t).
  { replace (EllipseTrajectory.K cfg u - 2 * u * t)
      with ((t - EllipseTrajectory.D cfg)
            * (t + EllipseTrajectory.D cfg - 2 * u))
      by (rewrite HK; ring).
    apply Rmult_le_pos; lra. }
  assert (Hplus : 0 <= EllipseTrajectory.K cfg u + 2 * u * t).
  { assert (0 <= 2 * u * t) by (apply Rmult_le_pos; lra). lra. }
  assert (Hprod : 0 <= (EllipseTrajectory.K cfg u - 2 * u * t)
                       * (EllipseTrajectory.K cfg u + 2 * u * t))
    by now apply Rmult_le_pos.
  assert (Hfact : EllipseTrajectory.K cfg u ^ 2 - 4 * u ^ 2 * w =
                  (EllipseTrajectory.K cfg u - 2 * u * t)
                  * (EllipseTrajectory.K cfg u + 2 * u * t)).
  { rewrite <- Htt. ring. }
  rewrite Hfact.
  apply Rmult_le_pos; [| exact Hprod].
  assert (P := pow2_ge_0 (EllipseTrajectory.L cfg)). lra.
Qed.

(** X16.  [elipse_trajetory.py] raises [ValueError] when the rope is not
    longer than the chord between the stations.  Otherwise the coefficient
    [A] is positive, the loop fills 200 entries, every entry that is a
    number is a root of the quadratic [A*y^2 + B*y + C = 0] of its sample,
    and with [D >= 0] no entry is [nan]. *)
Theorem ellipse_heights_solve_the_quadratic (cfg : EllipseTrajectory.config) :
  (EllipseTrajectory.L cfg <= EllipseTrajectory.R_ cfg ->
   EllipseTrajectory.main cfg = Raise ValueError) /\
  (EllipseTrajectory.R_ cfg < EllipseTrajectory.L cfg ->
   0 < EllipseTrajectory.A cfg /\
   exists y_vals,
     EllipseTrajectory.main cfg = Ret y_vals /\
     length y_vals = 200%nat /\
     (forall i y, (i < 200)%nat -> nth i y_vals None = Some y ->
        let u := nth i (EllipseTrajectory.x_vals cfg) 0 in
        EllipseTrajectory.A cfg * y ^ 2 + EllipseTrajectory.B cfg u * y
        + EllipseTrajectory.C cfg u = 0) /\
     (0 <= EllipseTrajectory.D cfg ->
      forall i, (i < 200)%nat -> nth i y_vals None <> None)).
Proof.
  split.
  - intros Hle. unfold EllipseTrajectory.main.
    destruct (Rle_dec (EllipseTrajectory.L cfg) (EllipseTrajectory.R_ cfg));
      [reflexivity | contradiction].
  - intros Hguard.
    destruct (rope_longer_than_chord cfg Hguard) as [HL Hsq].
    assert (HA : 0 < EllipseTrajectory.A cfg).
    { unfold EllipseTrajectory.A.
      assert (P := pow2_ge_0 (EllipseTrajectory.D cfg)). lra. }
    split; [exact HA |].
    unfold EllipseTrajectory.main.
    destruct (Rle_dec (EllipseTrajectory.L cfg) (EllipseTrajectory.R_ cfg));
      [lra |].
    rewrite ellipse_loop_spec, app_nil_l.
    eexists. split; [reflexivity |].
    assert (Hlen : length (EllipseTrajectory.x_vals cfg) = 200%nat)
      by apply linspace_length.
    assert (Hnth : forall i, (i < 200)%nat ->
              nth i (map (EllipseTrajectory.y_at cfg)
                       (EllipseTrajectory.x_vals cfg)) None =
              EllipseTrajectory.y_at cfg
                (nth i (EllipseTrajectory.x_vals cfg) 0)).
    { intros i Hi.
      rewrite (nth_indep _ None (EllipseTrajectory.y_at cfg 0))
        by (rewrite length_map; lia).
      apply map_nth. }
    split; [now rewrite length_map |].
    split.
    + intros i y Hi Hy. cbv zeta.
      set (u := nth i (EllipseTrajectory.x_vals cfg) 0).
      rewrite Hnth in Hy by exact Hi. fold u in Hy.
      unfold EllipseTrajectory.y_at in Hy.
      destruct (Rlt_dec (EllipseTrajectory.discriminant cfg u) 0)
        as [| Hd]; [discriminate Hy |].
      injection Hy as <-.
      apply quadratic_root; [lra |].
      unfold EllipseTrajectory.discriminant in Hd. lra.
    + intros HD i Hi. rewrite Hnth by exact Hi.
      unfold EllipseTrajectory.y_at.
      destruct (Rlt_dec (EllipseTrajectory.discriminant cfg
                           (nth i (EllipseTrajectory.x_vals cfg) 0)) 0)
        as [Hneg |]; [| discriminate].
      exfalso.
      assert (Hin : 0 <= nth i (EllipseTrajectory.x_vals cfg) 0
                    <= EllipseTrajectory.D cfg).
      { apply (linspace_in_bounds 0 (EllipseTrajectory.D cfg) 200);
          [exact HD |].
        apply nth_In. fold (EllipseTrajectory.x_vals cfg). lia. }
      assert (Hnn := ellipse_discriminant_nonneg cfg _ Hguard Hin). lra.
Qed.

Lemma short_rope_chord :
  EllipseTrajectory.L
    {| EllipseTrajectory.D := 3; EllipseTrajectory.H := 4;
       EllipseTrajectory.L := 5 |} <=
  EllipseTrajectory.R_
    {| EllipseTrajectory.D := 3; EllipseTrajectory.H := 4;
       EllipseTrajectory.L := 5 |}.
Proof.
  unfold EllipseTrajectory.R_. simpl.
  replace (3 * (3 * 1) + 4 * (4 * 1)) with (5 * 5) by lra.
  rewrite sqrt_square by lra. lra.
Qed.

Lemma ellipse_heights_solve_the_quadratic_witness :
  EllipseTrajectory.main
    {| EllipseTrajectory.D := 3; EllipseTrajectory.H := 4;
       EllipseTrajectory.L := 5 |} = Raise ValueError.
Proof.
  destruct (ellipse_heights_solve_the_quadratic
              {| EllipseTrajectory.D := 3; EllipseTrajectory.H := 4;
                 EllipseTrajectory.L := 5 |}) as [Hshort _].
  apply Hshort. exact short_rope_chord.
Defined.

(** X17.  When the rope is longer than the chord, the first plotted height,
    at [x = 0], is [-(L^2 - D^2 - H^2) / (2 * (L + H))], strictly below the
    lower station: the slack of the massless rope at the start. *)
Theorem ellipse_slack_at_start (cfg : EllipseTrajectory.config) :
  EllipseTrajectory.R_ cfg < EllipseTrajectory.L cfg ->
  exists y_vals,
    EllipseTrajectory.main cfg = Ret y_vals /\
    nth 0 y_vals None =
      Some (- (EllipseTrajectory.L cfg ^ 2 - EllipseTrajectory.D cfg ^ 2
               - EllipseTrajectory.H cfg ^ 2)
            / (2 * (EllipseTrajectory.L cfg + EllipseTrajectory.H cfg))) /\
    - (EllipseTrajectory.L cfg ^ 2 - EllipseTrajectory.D cfg ^ 2
       - EllipseTrajectory.H cfg ^ 2)
    / (2 * (EllipseTrajectory.L cfg + EllipseTrajectory.H cfg)) < 0.
Proof.
  intros Hguard.
  destruct (rope_longer_than_chord cfg Hguard) as [HL Hsq].
  unfold EllipseTrajectory.main.
  destruct (Rle_dec (EllipseTrajectory.L cfg) (EllipseTrajectory.R_ cfg));
    [lra |].
  rewrite ellipse_loop_spec, app_nil_l.
  set (Lc := EllipseTrajectory.L cfg) in *.
  set (Dc := EllipseTrajectory.D cfg) in *.
  set (Hc := EllipseTrajectory.H cfg) in *.
  assert (PD := pow2_ge_0 Dc).
  assert (HLH : 0 < Lc + Hc) by nra.
  assert (HLmH : 0 < Lc - Hc) by nra.
  assert (HK : 0 < Lc ^ 2 - Dc ^ 2 - Hc ^ 2) by lra.
  eexists. split; [reflexivity |].
  split.
  - rewrite (nth_indep _ None (EllipseTrajectory.y_at cfg 0))
      by (rewrite length_map; unfold EllipseTrajectory.x_vals;
          rewrite linspace_length; lia).
    rewrite (map_nth (EllipseTrajectory.y_at cfg)).
    unfold EllipseTrajectory.x_vals. rewrite linspace_first.
    unfold EllipseTrajectory.y_at.
    assert (Hdisc : EllipseTrajectory.discriminant cfg 0 =
                    (4 * (Lc ^ 2 - Dc ^ 2 - Hc ^ 2) * Lc)
                    * (4 * (Lc ^ 2 - Dc ^ 2 - Hc ^ 2) * Lc)).
    { rewrite ellipse_discriminant_factored. unfold EllipseTrajectory.K.
      fold Lc Dc Hc. ring. }
    rewrite Hdisc.
    set (X := 4 * (Lc ^ 2 - Dc ^ 2 - Hc ^ 2) * Lc).
    assert (HX : 0 < X)
      by (unfold X; apply Rmult_lt_0_compat; [lra | exact HL]).
    destruct (Rlt_dec (X * X) 0) as [Hneg | _].
    { exfalso. assert (Hs := Rle_0_sqr X). unfold Rsqr in Hs. lra. }
    rewrite sqrt_square by lra.
    f_equal. unfold X, EllipseTrajectory.B, EllipseTrajectory.K,
      EllipseTrajectory.A. fold Lc Dc Hc.
    field. split; nra.
  - apply Ropp_lt_cancel. rewrite Ropp_0.
    unfold Rdiv. rewrite <- Ropp_mult_distr_l, Ropp_involutive.
    apply Rmult_lt_0_compat; [exact HK |].
    apply Rinv_0_lt_compat. lra.
Qed.

Lemma long_rope_chord :
  EllipseTrajectory.R_
    {| EllipseTrajectory.D := 3; EllipseTrajectory.H := 4;
       EllipseTrajectory.L := 6 |} <
  EllipseTrajectory.L
    {| EllipseTrajectory.D := 3; EllipseTrajectory.H := 4;
       EllipseTrajectory.L := 6 |}.
Proof.
  unfold EllipseTrajectory.R_. simpl.
  replace (3 * (3 * 1) + 4 * (4 * 1)) with (5 * 5) by lra.
  rewrite sqrt_square by lra. lra.
Qed.

Lemma ellipse_slack_at_start_witness :
  exists y_vals,
    EllipseTrajectory.main
      {| EllipseTrajectory.D := 3; EllipseTrajectory.H := 4;
         EllipseTrajectory.L := 6 |} = Ret y_vals /\
    nth 0 y_vals None = Some (- (6 ^ 2 - 3 ^ 2 - 4 ^ 2) / (2 * (6 + 4))).
Proof.
  destruct (ellipse_slack_at_start
              {| EllipseTrajectory.D := 3; EllipseTrajectory.H := 4;
                 EllipseTrajectory.L := 6 |} long_rope_chord)
    as (ys & Hmain & H0 & _).
  exists ys. split; [exact Hmain | exact H0].
Defined.

(** ** A span that is not positive *)


